(** * rom-properties: format detection and field extraction

    A shallow embedding of the RomData parsers BRSTM, PSF and N64 of
    rom-properties, together with the audio helpers of
    librpbase/TextFuncs.cpp, and the properties of these parsers. *)

From Stdlib Require Import ZArith List String Ascii Bool Lia.
From Stdlib Require Import Floats.SpecFloat Strings.Byte.
Import ListNotations.
Open Scope Z_scope.

(** ** Machine integers *)

Definition u16 (x : Z) : Z := x mod 2 ^ 16.
Definition u32 (x : Z) : Z := x mod 2 ^ 32.
Definition u64 (x : Z) : Z := x mod 2 ^ 64.

(** [static_cast<int>] (or a C cast to [int]) of a wider integer: the
    two's complement wrap to 32 bits. *)
Definition to_int (z : Z) : Z := (z + 2 ^ 31) mod 2 ^ 32 - 2 ^ 31.

(** [__swab16] *)
Definition swab16 (x : Z) : Z :=
  Z.lor (Z.shiftl (Z.land x 255) 8) (Z.land (Z.shiftr x 8) 255).

(** [__swab32] *)
Definition swab32 (x : Z) : Z :=
  Z.lor (Z.lor (Z.shiftl (Z.land x 255) 24)
               (Z.shiftl (Z.land (Z.shiftr x 8) 255) 16))
        (Z.lor (Z.shiftl (Z.land (Z.shiftr x 16) 255) 8)
               (Z.land (Z.shiftr x 24) 255)).

(** Negative POSIX error codes. *)
Definition EBADF : Z := 9.
Definition EIO : Z := 5.

(** ** Byte sources *)

Definition byte := Byte.byte.
Definition bval (b : byte) : Z := Z.of_N (Byte.to_N b).

(** Concrete files are written as lists of byte values. *)
Definition bytes_of_Z (l : list Z) : list byte :=
  map (fun z => match Byte.of_N (Z.to_N z) with
                | Some b => b | None => Byte.x00 end) l.

(** Modelled from the spec: [IRpFile] (librpfile, not under src/), the
    byte-source collaborator of section 6: [read], [seekAndRead], [size]
    and [rewind] on an open file; a read at end of file is short, a seek
    to a negative offset fails and the following read returns 0 bytes.
    [f_nread] counts the bytes delivered so far. *)
Record IRpFile := mkFile {
  f_data : list byte;
  f_pos : nat;
  f_nread : nat
}.

Definition file_of (bs : list byte) : IRpFile := mkFile bs 0 0.

Definition rewind (f : IRpFile) : IRpFile :=
  mkFile (f_data f) 0 (f_nread f).

Definition file_size (f : IRpFile) : Z := Z.of_nat (List.length (f_data f)).

Definition read (f : IRpFile) (n : nat) : list byte * IRpFile :=
  let bs := firstn n (skipn (f_pos f) (f_data f)) in
  (bs, mkFile (f_data f) (f_pos f + List.length bs) (f_nread f + List.length bs)).

Definition seekAndRead (f : IRpFile) (addr : Z) (n : nat)
  : list byte * IRpFile :=
  if addr <? 0 then ([], f)
  else read (mkFile (f_data f) (Z.to_nat addr) (f_nread f)) n.

(** A struct of [n] bytes cleared by [memset] and then overwritten by a
    (possibly short) read of [bs]. *)
Definition fill (n : nat) (bs : list byte) : list byte :=
  firstn n (bs ++ repeat Byte.x00 n).

(** ** Decimal printing ([%u], [%02u]) *)

Fixpoint digits_aux (fuel : nat) (n : Z) (acc : string) : string :=
  match fuel with
  | O => acc
  | S fuel' =>
      let acc' := String (ascii_of_nat (48 + Z.to_nat (n mod 10))) acc in
      if n <? 10 then acc' else digits_aux fuel' (n / 10) acc'
  end.

(** [printf("%u", n)] *)
Definition fmt_u (n : Z) : string := digits_aux 40 n EmptyString.

(** [printf("%02u", n)] *)
Definition fmt_02u (n : Z) : string :=
  if n <? 10 then String "0" (fmt_u n) else fmt_u n.

(** ** Single-precision arithmetic (C [float], IEEE binary32) *)

Definition f32 := spec_float.
Definition f32_of_uint (n : Z) : f32 := binary_normalize 24 128 n 0 false.
Definition f32_div (x y : f32) : f32 := SFdiv 24 128 x y.
Definition f32_mul (x y : f32) : f32 := SFmul 24 128 x y.

(** [static_cast<unsigned int>] of a finite non-negative float:
    truncation toward zero. *)
Definition f32_to_uint (x : f32) : Z :=
  match x with
  | S754_finite false m e =>
      if 0 <=? e then u32 (Z.pos m * 2 ^ e) else Z.pos m / 2 ^ (- e)
  | _ => 0
  end.

(** ** TextFuncs.cpp: audio functions *)

Module TextFuncs.

(** [formatSampleAsTime]: m:ss.cs *)
Definition formatSampleAsTime (sample rate : Z) : string :=
  if rate =? 0 then "#DIV/0!"%string
  else
    let cs_frames := sample mod rate in
    let cs := if negb (cs_frames =? 0)
              then f32_to_uint (f32_mul (f32_div (f32_of_uint cs_frames)
                                                 (f32_of_uint rate))
                                        (f32_of_uint 100))
              else 0 in
    let sec := sample / rate in
    let min := sec / 60 in
    let sec := sec mod 60 in
    (fmt_u min ++ ":" ++ fmt_02u sec ++ "." ++ fmt_02u cs)%string.

(** [convSampleToMs]. The C code divides by [rate] unconditionally;
    a division by zero is undefined behaviour (a SIGFPE trap on x86),
    modelled as [None]. *)
Definition c_mod (a b : Z) : option Z := if b =? 0 then None else Some (a mod b).
Definition c_div (a b : Z) : option Z := if b =? 0 then None else Some (a / b).

Definition convSampleToMs (sample rate : Z) : option Z :=
  match c_mod sample rate with
  | None => None
  | Some ms_frames =>
      let ms := if negb (ms_frames =? 0)
                then f32_to_uint (f32_mul (f32_div (f32_of_uint ms_frames)
                                                   (f32_of_uint rate))
                                          (f32_of_uint 1000))
                else 0 in
      match c_div sample rate with
      | None => None
      | Some sec => Some (u32 (sec * 1000 + ms))
      end
  end.

End TextFuncs.

(** ** RomData: cached fields and metadata *)

(** A field value of [RomFields]. *)
Inductive field_value :=
| FString (s : string)
| FNumeric (n : Z).

Definition field := (string * field_value)%type.

(** The metadata properties used by the modelled readers. *)
Inductive Property :=
| Title | Artist | Album | ReleaseYear | Genre | Copyright
| Duration | Subject | Channels | SampleRate.

Inductive meta_value :=
| MString (s : string)
| MInteger (n : Z)
| MUInt (n : Z).

Definition meta := (Property * meta_value)%type.

(** ** BRSTM.cpp *)

Module BRSTM.

(** [BRSTM_Header], as the host reads it from memory (not byteswapped). *)
Record BRSTM_Header := mkHeader {
  magic : Z; bom : Z; version_major : Z; version_minor : Z;
  file_size_f : Z; header_size : Z; chunk_count : Z;
  head_offset : Z; head_size : Z;
  adpc_offset : Z; adpc_size : Z;
  data_offset : Z; data_size : Z
}.

(** [BRSTM_HEAD_Header]: chunk magic, size and the part-1 offset (the
    marker before it is not read by the code). *)
Record BRSTM_HEAD_Header := mkHeadHeader {
  hh_magic : Z; hh_size : Z; head1_offset : Z
}.

(** [BRSTM_HEAD_Chunk1]: the fields read by the field and metadata
    loaders. *)
Record BRSTM_HEAD_Chunk1 := mkChunk1 {
  codec : Z; loop_flag : Z; channel_count : Z;
  sample_rate : Z; loop_start : Z; sample_count : Z
}.

(** The data of brstm_structs.h (not under src/): the host byte order, the
    magic numbers and byte-order marks, the struct sizes and the
    [reinterpret_cast] of a byte buffer to each struct. The code below is
    generic in it. *)
Record layout := mkLayout {
  host_le : bool;
  BRSTM_MAGIC : Z; BRSTM_HEAD_MAGIC : Z;
  BRSTM_BOM_HOST : Z; BRSTM_BOM_SWAP : Z;
  sizeof_Header : nat; sizeof_HEAD_Header : nat; sizeof_HEAD_Chunk1 : nat;
  decode_Header : list byte -> BRSTM_Header;
  decode_HEAD_Header : list byte -> BRSTM_HEAD_Header;
  decode_HEAD_Chunk1 : list byte -> BRSTM_HEAD_Chunk1
}.

Section Code.
Variable L : layout.

Definition cpu_to_be32 (x : Z) : Z := if host_le L then swab32 x else x.

(** [DetectInfo]: the header buffer ([pData] is [None] for a null
    pointer) at file address [addr], of [size] bytes. *)
Record DetectInfo := mkInfo {
  addr : Z; size : Z; pData : option (list byte)
}.

(** [BRSTM::isRomSupported_static]; [None] is a null [info]. *)
Definition isRomSupported_static (info : option DetectInfo) : Z :=
  match info with
  | None => -1
  | Some i =>
    match pData i with
    | None => -1
    | Some buf =>
      if negb (addr i =? 0) || (size i <? Z.of_nat (sizeof_Header L)) then -1
      else
        let h := decode_Header L buf in
        if negb (magic h =? cpu_to_be32 (BRSTM_MAGIC L)) then -1
        else
          let nbs := if bom h =? BRSTM_BOM_HOST L then Some false
                     else if bom h =? BRSTM_BOM_SWAP L then Some true
                     else None in
          match nbs with
          | None => -1
          | Some needsByteswap =>
            let chunk_count := if needsByteswap then swab16 (chunk_count h)
                               else chunk_count h in
            if chunk_count <? 2 then -1
            else if (head_offset h =? 0) || (head_size h =? 0) ||
                    (data_offset h =? 0) || (data_size h =? 0) then -1
            else 0
          end
    end
  end.

(** [BRSTMPrivate] together with the [RomDataPrivate] state it uses. *)
Record BRSTMPrivate := mkPriv {
  file : option IRpFile;
  isValid : bool;
  fields : list field;
  metaData : option (list meta);
  brstmHeader : list byte;
  headChunk1 : list byte;
  needsByteswap : bool
}.

Definition brstm16_to_cpu (d : BRSTMPrivate) (x : Z) : Z :=
  if needsByteswap d then swab16 x else x.
Definition brstm32_to_cpu (d : BRSTMPrivate) (x : Z) : Z :=
  if needsByteswap d then swab32 x else x.

Definition set_file (d : BRSTMPrivate) (f : option IRpFile) : BRSTMPrivate :=
  mkPriv f (isValid d) (fields d) (metaData d) (brstmHeader d) (headChunk1 d)
         (needsByteswap d).
Definition set_isValid (d : BRSTMPrivate) (v : bool) : BRSTMPrivate :=
  mkPriv (file d) v (fields d) (metaData d) (brstmHeader d) (headChunk1 d)
         (needsByteswap d).

(** [d->isValid = false; d->file->unref(); d->file = nullptr;] *)
Definition invalidate (d : BRSTMPrivate) : BRSTMPrivate :=
  set_file (set_isValid d false) None.

(** [BRSTM::BRSTM(IRpFile *file)]; [None] is a file that could not be
    [ref()]'d. *)
Definition BRSTM_ctor (fopt : option IRpFile) : BRSTMPrivate :=
  let d0 := mkPriv fopt false [] None
                   (repeat Byte.x00 (sizeof_Header L))
                   (repeat Byte.x00 (sizeof_HEAD_Chunk1 L)) false in
  match fopt with
  | None => d0
  | Some f0 =>
    let '(bs, f1) := read (rewind f0) (sizeof_Header L) in
    let hdr := fill (sizeof_Header L) bs in
    let d1 := mkPriv (Some f1) false [] None hdr (headChunk1 d0) false in
    if negb (Nat.eqb (List.length bs) (sizeof_Header L)) then set_file d1 None
    else
    let info := mkInfo 0 (Z.of_nat (sizeof_Header L)) (Some hdr) in
    let valid := 0 <=? isRomSupported_static (Some info) in
    let d2 := set_isValid d1 valid in
    if negb valid then set_file d2 None
    else
    let h := decode_Header L hdr in
    let d3 := mkPriv (Some f1) true [] None hdr (headChunk1 d0)
                     (bom h =? BRSTM_BOM_SWAP L) in
    let head_offset := brstm32_to_cpu d3 (head_offset h) in
    let head_size := brstm32_to_cpu d3 (head_size h) in
    if (head_offset =? 0) || (head_size <? Z.of_nat (sizeof_HEAD_Header L))
    then invalidate d3
    else
    let '(hb, f2) := seekAndRead f1 head_offset (sizeof_HEAD_Header L) in
    let d4 := set_file d3 (Some f2) in
    if negb (Nat.eqb (List.length hb) (sizeof_HEAD_Header L)) then invalidate d4
    else
    let hh := decode_HEAD_Header L hb in
    if negb (hh_magic hh =? cpu_to_be32 (BRSTM_HEAD_MAGIC L)) then invalidate d4
    else
    let head1_offset := brstm32_to_cpu d4 (head1_offset hh) in
    if head1_offset <? u64 (Z.of_nat (sizeof_HEAD_Header L) - 8)
    then invalidate d4
    else
    let '(cb, f3) := seekAndRead f2 (u32 (head_offset + 8 + head1_offset))
                                 (sizeof_HEAD_Chunk1 L) in
    let d5 := mkPriv (Some f3) true [] None hdr
                     (fill (sizeof_HEAD_Chunk1 L) cb) (needsByteswap d4) in
    if negb (Nat.eqb (List.length cb) (sizeof_HEAD_Chunk1 L)) then invalidate d5
    else d5
  end.

Definition cpu_to_be16 (x : Z) : Z := if host_le L then swab16 x else x.

Definition set_fields (d : BRSTMPrivate) (fs : list field) : BRSTMPrivate :=
  mkPriv (file d) (isValid d) fs (metaData d) (brstmHeader d) (headChunk1 d)
         (needsByteswap d).
Definition set_metaData (d : BRSTMPrivate) (m : option (list meta))
  : BRSTMPrivate :=
  mkPriv (file d) (isValid d) (fields d) m (brstmHeader d) (headChunk1 d)
         (needsByteswap d).

Definition codec_tbl : list string :=
  ["Signed 8-bit PCM"; "Signed 16-bit PCM"; "4-bit THP ADPCM"]%string.

(** [BRSTM::loadFieldData]: the result and the updated object. *)
Definition loadFieldData (d : BRSTMPrivate) : Z * BRSTMPrivate :=
  match fields d, file d with
  | _ :: _, _ => (0, d)
  | [], None => (- EBADF, d)
  | [], Some _ =>
    if negb (isValid d) then (- EIO, d)
    else
    let brstmHeader := decode_Header L (brstmHeader d) in
    let headChunk1 := decode_HEAD_Chunk1 L (headChunk1 d) in
    let f_version := ("Version",
      FString (fmt_u (version_major brstmHeader) ++ "." ++
               fmt_u (version_minor brstmHeader)))%string in
    let f_endian := ("Endianness",
      FString (if (bom brstmHeader =? cpu_to_be16 (BRSTM_BOM_HOST L))%Z
               then "Big-Endian" else "Little-Endian"))%string in
    let f_codec := ("Codec",
      FString (if (codec headChunk1 <? Z.of_nat (List.length codec_tbl))%Z
               then nth (Z.to_nat (codec headChunk1)) codec_tbl EmptyString
               else "Unknown (" ++ fmt_u (codec headChunk1) ++ ")"))%string in
    let f_channels := ("Channels", FNumeric (channel_count headChunk1))%string in
    let sample_rate := brstm16_to_cpu d (sample_rate headChunk1) in
    let sample_count := brstm32_to_cpu d (sample_count headChunk1) in
    let f_rate := ("Sample Rate", FString (fmt_u sample_rate ++ " Hz"))%string in
    let f_length := ("Length",
      FString (TextFuncs.formatSampleAsTime sample_count sample_rate))%string in
    let f_looping := ("Looping",
      FString (if negb (loop_flag headChunk1 =? 0)%Z then "Yes" else "No"))%string in
    let f_loop_start :=
      if negb (loop_flag headChunk1 =? 0)
      then [("Loop Start", FString (TextFuncs.formatSampleAsTime
                (brstm32_to_cpu d (loop_start headChunk1)) sample_rate))%string]
      else [] in
    let fs := [f_version; f_endian; f_codec; f_channels; f_rate; f_length;
               f_looping] ++ f_loop_start in
    (Z.of_nat (List.length fs), set_fields d fs)
  end.

(** [BRSTM::loadMetaData]; [None] is the division by zero of
    [convSampleToMs]. *)
Definition loadMetaData (d : BRSTMPrivate) : option (Z * BRSTMPrivate) :=
  match metaData d, file d with
  | Some _, _ => Some (0, d)
  | None, None => Some (- EBADF, d)
  | None, Some _ =>
    if negb (isValid d) then Some (- EIO, d)
    else
    let headChunk1 := decode_HEAD_Chunk1 L (headChunk1 d) in
    let sample_rate := brstm16_to_cpu d (sample_rate headChunk1) in
    let sample_count := brstm32_to_cpu d (sample_count headChunk1) in
    match TextFuncs.convSampleToMs sample_count sample_rate with
    | None => None
    | Some ms =>
      let md := [(Channels, MInteger (channel_count headChunk1));
                 (SampleRate, MInteger sample_rate);
                 (Duration, MInteger ms)] in
      Some (Z.of_nat (List.length md), set_metaData d (Some md))
    end
  end.

End Code.

(** Reading a little-endian host value of [n] bytes at [off]. *)
Fixpoint le_load (bs : list byte) : Z :=
  match bs with
  | [] => 0
  | b :: bs' => bval b + 256 * le_load bs'
  end.
Definition ld (n off : nat) (bs : list byte) : Z :=
  le_load (firstn n (skipn off (fill (off + n) bs))).

(** A layout used to run the reader on concrete files: a little-endian
    host, the BRSTM magic numbers and the wire format of a BRSTM file. *)
Definition sample_layout : layout := {|
  host_le := true;
  BRSTM_MAGIC := 1381192781;        (* 'RSTM' *)
  BRSTM_HEAD_MAGIC := 1212498244;   (* 'HEAD' *)
  BRSTM_BOM_HOST := 65279;          (* 0xFEFF *)
  BRSTM_BOM_SWAP := 65534;          (* 0xFFFE *)
  sizeof_Header := 40; sizeof_HEAD_Header := 32; sizeof_HEAD_Chunk1 := 52;
  decode_Header := fun bs => mkHeader (ld 4 0 bs) (ld 2 4 bs) (ld 1 6 bs)
      (ld 1 7 bs) (ld 4 8 bs) (ld 2 12 bs) (ld 2 14 bs) (ld 4 16 bs)
      (ld 4 20 bs) (ld 4 24 bs) (ld 4 28 bs) (ld 4 32 bs) (ld 4 36 bs);
  decode_HEAD_Header := fun bs => mkHeadHeader (ld 4 0 bs) (ld 4 4 bs)
      (ld 4 12 bs);
  decode_HEAD_Chunk1 := fun bs => mkChunk1 (ld 1 0 bs) (ld 1 1 bs)
      (ld 1 2 bs) (ld 2 4 bs) (ld 4 8 bs) (ld 4 12 bs)
|}.

(** A 148-byte big-endian BRSTM file: 2 chunks, HEAD at 0x40 of size 100,
    DATA at 0x100; HEAD header with marker 0x01000000 and head1_offset 24
    (at +0x0C), so part 1 is at 0x40+8+24: THP ADPCM, 2 channels,
    44100 Hz, 44100 samples, no loop. *)
Definition sample_file : list byte := bytes_of_Z (
  [82;83;84;77; 254;255; 1;0; 0;0;0;0; 0;64; 0;2;
   0;0;0;64; 0;0;0;100; 0;0;0;0; 0;0;0;0; 0;0;1;0; 0;0;0;16] ++
  repeat 0 24 ++
  [72;69;65;68; 0;0;0;100; 1;0;0;0; 0;0;0;24] ++ repeat 0 16 ++
  [2;0;2;0; 172;68;0;0; 0;0;0;0; 0;0;172;68] ++ repeat 0 36).

End BRSTM.


(** ** N64.cpp *)

Module N64.

(** [N64Private::RomType] *)
Definition ROM_TYPE_UNKNOWN : Z := -1.
Definition ROM_TYPE_Z64 : Z := 0.
Definition ROM_TYPE_V64 : Z := 1.
Definition ROM_TYPE_SWAP2 : Z := 2.
Definition ROM_TYPE_LE32 : Z := 3.

(** [sizeof(N64_RomHeader)]: 0x40 bytes. *)
Definition sizeof_RomHeader : nat := 64.

(** Big-endian bytes of an [n]-byte value: the memory image of
    [cpu_to_be64(x)] on any host. *)
Fixpoint be_bytes (n : nat) (x : Z) : list byte :=
  match n with
  | O => []
  | S n' => be_bytes n' (x / 256) ++ bytes_of_Z [x mod 256]
  end.

(** [__byte_swap_16_array]: swap the two bytes of every 16-bit element. *)
Fixpoint byte_swap_16_array (l : list byte) : list byte :=
  match l with
  | a :: b :: r => b :: a :: byte_swap_16_array r
  | _ => l
  end.

(** [UNSWAP2] on every 32-bit element: [(x >> 16) | (x << 16)] exchanges
    the two 16-bit halves of the word; on the memory image this moves
    bytes [a b c d] to [c d a b] on either host byte order. *)
Fixpoint unswap2_array (l : list byte) : list byte :=
  match l with
  | a :: b :: c :: d :: r => c :: d :: a :: b :: unswap2_array r
  | _ => l
  end.

(** [__byte_swap_32_array]: reverse the bytes of every 32-bit element. *)
Fixpoint byte_swap_32_array (l : list byte) : list byte :=
  match l with
  | a :: b :: c :: d :: r => d :: c :: b :: a :: byte_swap_32_array r
  | _ => l
  end.

(** Modelled from the spec: the magic numbers of n64_structs.h (not under
    src/), one per container variant. Z64 is the native big-endian image
    whose first 8 bytes are [80 37 12 40 00 00 00 0F]; following the
    comments of [N64::N64], the V64, swap2 and LE32 magics are the first 8
    bytes of the Z64 ones as stored by the 16-bit byteswapped, word-swapped
    and 32-bit byteswapped containers. *)
Definition N64_Z64_MAGIC : Z := 0x803712400000000F.
Definition N64_V64_MAGIC : Z := 0x3780401200000F00.
Definition N64_SWAP2_MAGIC : Z := 0x12408037000F0000.
Definition N64_LE32_MAGIC : Z := 0x401237800F000000.

Definition magic64_is (hdr : list byte) (m : Z) : bool :=
  if list_eq_dec Byte.byte_eq_dec (firstn 8 hdr) (be_bytes 8 m) then true
  else false.

(** [N64::isRomSupported_static] on a header buffer at address [addr] of
    [size] bytes; [None] is a null buffer or [info]. *)
Definition isRomSupported_static (addr size : Z) (pData : option (list byte))
  : Z :=
  match pData with
  | None => -1
  | Some hdr =>
    if negb (addr =? 0) || (size <? Z.of_nat sizeof_RomHeader) then -1
    else if magic64_is hdr N64_Z64_MAGIC then ROM_TYPE_Z64
    else if magic64_is hdr N64_V64_MAGIC then ROM_TYPE_V64
    else if magic64_is hdr N64_SWAP2_MAGIC then ROM_TYPE_SWAP2
    else if magic64_is hdr N64_LE32_MAGIC then ROM_TYPE_LE32
    else ROM_TYPE_UNKNOWN
  end.

(** [N64Private]. [romHeader] is the header in Z64 (big-endian) order; the
    final [be32_to_cpu] of [init_pi], [clockrate], [entrypoint] and [crc]
    reinterprets these words in host order and is a function of it. *)
Record N64Private := mkPriv {
  file : option IRpFile;
  isValid : bool;
  romType : Z;
  romHeader : list byte
}.

(** [N64::N64(IRpFile *file)] *)
Definition N64_ctor (fopt : option IRpFile) : N64Private :=
  let zero := repeat Byte.x00 sizeof_RomHeader in
  match fopt with
  | None => mkPriv None false ROM_TYPE_UNKNOWN zero
  | Some f0 =>
    let '(bs, f1) := read (rewind f0) sizeof_RomHeader in
    let hdr := fill sizeof_RomHeader bs in
    if negb (Nat.eqb (List.length bs) sizeof_RomHeader)
    then mkPriv None false ROM_TYPE_UNKNOWN hdr
    else
    let romType := isRomSupported_static 0 (Z.of_nat sizeof_RomHeader)
                                         (Some hdr) in
    let conv :=
      if romType =? ROM_TYPE_Z64 then Some hdr
      else if romType =? ROM_TYPE_V64 then Some (byte_swap_16_array hdr)
      else if romType =? ROM_TYPE_SWAP2 then Some (unswap2_array hdr)
      else if romType =? ROM_TYPE_LE32 then Some (byte_swap_32_array hdr)
      else None in
    match conv with
    | None => mkPriv None false ROM_TYPE_UNKNOWN hdr
    | Some z64 => mkPriv (Some f1) true romType z64
    end
  end.

(** The four container variants. *)
Inductive variant := Z64 | V64 | SWAP2 | LE32.

Definition variant_id (v : variant) : Z :=
  match v with
  | Z64 => ROM_TYPE_Z64 | V64 => ROM_TYPE_V64
  | SWAP2 => ROM_TYPE_SWAP2 | LE32 => ROM_TYPE_LE32
  end.

(** How each variant stores a Z64 image, after the container conventions:
    Z64 as is; V64 with the two bytes of each 16-bit unit exchanged; swap2
    with the two 16-bit halves of each 32-bit word exchanged, each half
    kept in order; LE32 with each 32-bit word stored least significant
    byte first. *)
Fixpoint swap_units16 (l : list byte) : list byte :=
  match l with
  | hi :: lo :: r => lo :: hi :: swap_units16 r
  | _ => l
  end.
Fixpoint swap_halves32 (l : list byte) : list byte :=
  match l with
  | h0 :: h1 :: l0 :: l1 :: r => l0 :: l1 :: h0 :: h1 :: swap_halves32 r
  | _ => l
  end.
Fixpoint words_le32 (l : list byte) : list byte :=
  match l with
  | b3 :: b2 :: b1 :: b0 :: r => b0 :: b1 :: b2 :: b3 :: words_le32 r
  | _ => l
  end.

Definition encode (v : variant) (z64 : list byte) : list byte :=
  match v with
  | Z64 => z64
  | V64 => swap_units16 z64
  | SWAP2 => swap_halves32 z64
  | LE32 => words_le32 z64
  end.

End N64.
(** ** The C library: [sscanf], [strchr], [tolower] *)

Module CLib.

Definition is_space (c : byte) : bool :=
  let v := bval c in (v =? 32) || ((9 <=? v) && (v <=? 13)).
Definition is_digit (c : byte) : bool :=
  let v := bval c in (48 <=? v) && (v <=? 57).

(** The C string held by a buffer: up to its first NUL. *)
Fixpoint c_str (l : list byte) : list byte :=
  match l with
  | [] => []
  | c :: r => if Byte.eqb c Byte.x00 then [] else c :: c_str r
  end.

(** [strchr(str, c)]: the suffix after the first [c], if any. *)
Fixpoint strchr_after (l : list byte) (c : byte) : option (list byte) :=
  match l with
  | [] => None
  | x :: r => if Byte.eqb x c then Some r else strchr_after r c
  end.

(** [std::tolower] in the "C" locale. *)
Definition tolower (c : byte) : byte :=
  let v := bval c in
  if (65 <=? v) && (v <=? 90) then hd Byte.x00 (bytes_of_Z [v + 32]) else c.

(** Conversion directives of a [scanf] format. *)
Inductive directive :=
| Du                       (** [%u] *)
| Dd (width : nat)         (** [%Nd] with maximum field width [N] *)
| Dc                       (** [%c] *)
| Dlit (c : byte).         (** an ordinary character *)

Fixpoint skip_space (l : list byte) : list byte :=
  match l with
  | c :: r => if is_space c then skip_space r else l
  | [] => []
  end.

(** Digits of a numeric field, at most [w] characters. *)
Fixpoint scan_digits (w : nat) (l : list byte) (acc : Z) (nd : nat)
  : Z * nat * list byte :=
  match w, l with
  | S w', c :: r =>
      if is_digit c then scan_digits w' r (acc * 10 + (bval c - 48)) (S nd)
      else (acc, nd, l)
  | _, _ => (acc, nd, l)
  end.

(** A numeric field of at most [w] characters: optional sign, then at
    least one digit; [None] is a matching failure. *)
Definition scan_number (w : nat) (l : list byte) : option (bool * Z * list byte) :=
  let '(neg, w', l') :=
    match l with
    | c :: r => if Byte.eqb c "-"%byte then (true, pred w, r)
                else if Byte.eqb c "+"%byte then (false, pred w, r)
                else (false, w, l)
    | [] => (false, w, l)
    end in
  let '(v, nd, rest) := scan_digits w' l' 0 O in
  if Nat.eqb nd 0 then None else Some (neg, v, rest).

(** [%u]: [strtoul] returns [ULONG_MAX] (64-bit) when the digits
    overflow it, whatever the sign, and otherwise negates a negative
    number; the result is stored in an [unsigned int]. *)
Definition store_u (neg : bool) (v : Z) : Z :=
  if 2 ^ 64 - 1 <? v then u32 (2 ^ 64 - 1)
  else u32 (if neg then 2 ^ 64 - v else v).
Definition store_d (neg : bool) (v : Z) : Z := if neg then - v else v.

(** [sscanf(str, fmt, ...)]: the return value (number of assignments, or
    [EOF] = -1 when input ends before the first conversion) and the
    values assigned, in order. *)
Fixpoint scan (fmt : list directive) (inp : list byte) (n : Z) (vals : list Z)
  : Z * list Z :=
  let input_failure := (if n =? 0 then -1 else n, vals) in
  match fmt with
  | [] => (n, vals)
  | Dlit c :: fmt' =>
      match inp with
      | [] => input_failure
      | x :: inp' => if Byte.eqb x c then scan fmt' inp' n vals else (n, vals)
      end
  | Dc :: fmt' =>
      match inp with
      | [] => input_failure
      | x :: inp' => scan fmt' inp' (n + 1) (vals ++ [bval x])
      end
  | Du :: fmt' =>
      match skip_space inp with
      | [] => input_failure
      | inp1 =>
        match scan_number (List.length inp1) inp1 with
        | None => (n, vals)
        | Some (neg, v, inp2) => scan fmt' inp2 (n + 1) (vals ++ [store_u neg v])
        end
      end
  | Dd w :: fmt' =>
      match skip_space inp with
      | [] => input_failure
      | inp1 =>
        match scan_number w inp1 with
        | None => (n, vals)
        | Some (neg, v, inp2) => scan fmt' inp2 (n + 1) (vals ++ [store_d neg v])
        end
      end
  end.

Definition sscanf (str : list byte) (fmt : list directive) : Z * list Z :=
  scan fmt (c_str str) 0 [].

End CLib.

(** ** PSF.cpp *)

Module PSF.
Import CLib.

Definition lit (s : string) : list directive :=
  map Dlit (list_byte_of_string s).

(** The [sscanf] formats of [PSFPrivate::lengthToMs]. *)
Definition fmt_hms_dot := [Du; Dlit ":"; Du; Dlit ":"; Du; Dlit "."; Du]%byte.
Definition fmt_hms_comma := [Du; Dlit ":"; Du; Dlit ":"; Du; Dlit ","; Du]%byte.
Definition fmt_hms := [Du; Dlit ":"; Du; Dlit ":"; Du]%byte.
Definition fmt_ms_dot := [Du; Dlit ":"; Du; Dlit "."; Du]%byte.
Definition fmt_ms_comma := [Du; Dlit ":"; Du; Dlit ","; Du]%byte.
Definition fmt_ms := [Du; Dlit ":"; Du]%byte.
Definition fmt_s_dot := [Du; Dlit "."; Du]%byte.
Definition fmt_s_comma := [Du; Dlit ","; Du]%byte.
Definition fmt_s := [Du].

(** The [unsigned int] locals of [lengthToMs]. *)
Record locals := mkLocals { hour : Z; min : Z; sec : Z; frac : Z }.

(** Store the values of one [sscanf] call into its destinations, in the
    order of the arguments. *)
Inductive dest := Hour | Min | Sec | Frac.
Definition store (st : locals) (x : dest) (v : Z) : locals :=
  match x with
  | Hour => mkLocals v (min st) (sec st) (frac st)
  | Min => mkLocals (hour st) v (sec st) (frac st)
  | Sec => mkLocals (hour st) (min st) v (frac st)
  | Frac => mkLocals (hour st) (min st) (sec st) v
  end.
Fixpoint store_all (st : locals) (xs : list dest) (vs : list Z) : locals :=
  match xs, vs with
  | x :: xs', v :: vs' => store_all (store st x v) xs' vs'
  | _, _ => st
  end.

(** One [s = sscanf(str, fmt, &...)] statement. *)
Definition scanf_to (str : list byte) (fmt : list directive) (xs : list dest)
  (st : locals) : Z * locals :=
  let '(s, vs) := sscanf str fmt in (s, store_all st xs vs).

Fixpoint count_digits (l : list byte) : nat :=
  match l with
  | c :: r => if is_digit c then S (count_digits r) else O
  | [] => O
  end.

(** The locals start indeterminate; every read of one in [lengthToMs]
    comes after a [sscanf] call that assigned it, so any start value
    gives the same result. *)
Definition locals0 := mkLocals 0 0 0 0.

(** [PSFPrivate::lengthToMs] *)
Definition lengthToMs (str0 : list byte) : Z :=
  let str := c_str str0 in
  let dp := match strchr_after str "."%byte with
            | Some r => Some r
            | None => strchr_after str ","%byte
            end in
  let frac_adj :=
    match dp with
    | None => 0
    | Some r =>
      match count_digits r with
      | O => 0 | 1%nat => 100 | 2%nat => 10 | _ => 1
      end
    end in
  let '(s, st) := scanf_to str fmt_hms_dot [Hour; Min; Sec; Frac] locals0 in
  let '(s, st) := if negb (s =? 4)
                  then scanf_to str fmt_hms_comma [Hour; Min; Sec; Frac] st
                  else (s, st) in
  if s =? 4 then
    u32 (hour st * 60 * 60 * 1000 + min st * 60 * 1000 + sec st * 1000 +
         frac st * frac_adj)
  else
  let '(s, st) := scanf_to str fmt_hms [Hour; Min; Sec] st in
  if s =? 3 then
    u32 (hour st * 60 * 60 * 1000 + min st * 60 * 1000 + sec st * 1000)
  else
  let '(s, st) := scanf_to str fmt_ms_dot [Min; Sec; Frac] st in
  let '(s, st) := if negb (s =? 3)
                  then scanf_to str fmt_ms_comma [Min; Sec; Frac] st
                  else (s, st) in
  if s =? 3 then
    u32 (min st * 60 * 1000 + sec st * 1000 + frac st * frac_adj)
  else
  let '(s, st) := scanf_to str fmt_ms [Min; Sec] st in
  if s =? 2 then u32 (min st * 60 * 1000 + sec st * 1000)
  else
  let '(s, st) := scanf_to str fmt_s_dot [Sec; Frac] st in
  let '(s, st) := if negb (s =? 2)
                  then scanf_to str fmt_s_comma [Sec; Frac] st
                  else (s, st) in
  if s =? 2 then
    u32 (min st * 60 * 1000 + sec st * 1000 + frac st * frac_adj)
  else
  let '(s, st) := scanf_to str fmt_s [Sec] st in
  if s =? 1 then sec st
  else 0.

(** Hexadecimal printing: [printf("%02X", n)] for a byte. *)
Definition hex_digit (n : Z) : ascii :=
  if n <? 10 then ascii_of_nat (48 + Z.to_nat n) else ascii_of_nat (55 + Z.to_nat n).
Definition fmt_02X (n : Z) : string :=
  String (hex_digit (n / 16 mod 16)) (String (hex_digit (n mod 16)) EmptyString).

(** The data of psf_structs.h (not under src/): the header size, the
    length of the tag magic ["[TAG]"], the header magic test and the
    (little-endian) header fields, and the two version tables of
    [PSF.cpp] keyed by its [PSF_VERSION_*] constants. The code below is
    generic in it. *)
Record layout := mkLayout {
  sizeof_PSF_Header : nat;
  sizeof_TAG_MAGIC : nat;
  magic_ok : list byte -> bool;
  version : list byte -> Z;
  reserved_size : list byte -> Z;
  compressed_prg_length : list byte -> Z;
  sysname_lkup_tbl : list (Z * string);
  psfby_lkup_tbl : list (Z * list byte)
}.

Definition tags := list (list byte * list byte).

(** [unordered_map::find] *)
Fixpoint find (kv : tags) (k : list byte) : option (list byte) :=
  match kv with
  | [] => None
  | (k', v) :: r =>
      if list_eq_dec Byte.byte_eq_dec k k' then Some v else find r k
  end.

(** [unordered_map::emplace]: inserts only when the key is absent. *)
Definition emplace (kv : tags) (k v : list byte) : tags :=
  match find kv k with
  | Some _ => kv
  | None => kv ++ [(k, v)]
  end.

(** Split the tag data at every newline. The loop of [parseTags] visits
    these lines in order (the empty ones are skipped); the last line runs
    to the end of the data. *)
Fixpoint lines (l : list byte) : list (list byte) :=
  match l with
  | [] => [[]]
  | c :: r =>
      if Byte.eqb c "010"%byte then [] :: lines r
      else match lines r with
           | h :: t => (c :: h) :: t
           | [] => [[c]]
           end
  end.

(** [memchr(p, '=', nl-p)]: the key and value around the first ['='].  *)
Fixpoint split_eq (l : list byte) : option (list byte * list byte) :=
  match l with
  | [] => None
  | c :: r =>
      if Byte.eqb c "="%byte then Some ([], r)
      else match split_eq r with
           | Some (k, v) => Some (c :: k, v)
           | None => None
           end
  end.

(** One iteration of the loop body: the map and the [isUtf8] flag.
    [k_len = (int)(eq - p)] and [v_len = (int)(nl - eq - 1)] wrap to
    32 bits; the key and the value are built from that many bytes. *)
Definition parse_line (acc : tags * bool) (line : list byte) : tags * bool :=
  let '(kv, isUtf8) := acc in
  match line with
  | [] => acc
  | _ =>
    match split_eq line with
    | None => acc
    | Some (k, v) =>
      let k_len := to_int (Z.of_nat (List.length k)) in
      let v_len := to_int (Z.of_nat (List.length v)) in
      if (0 <? k_len) && (0 <? v_len) then
        let key := map tolower (firstn (Z.to_nat k_len) k) in
        (emplace kv key (firstn (Z.to_nat v_len) v),
         if list_eq_dec Byte.byte_eq_dec key (list_byte_of_string "utf8")
         then true else isUtf8)
      else acc
    end
  end.

Section Code.
Variable L : layout.
(** [cp1252_sjis_to_utf8] of librpbase, outside the modelled code. *)
Variable cp1252_sjis_to_utf8 : list byte -> list byte.

(** [PSFPrivate::parseTags]: the tags, the file after the reads, and the
    size of the [tag_data] buffer allocated (0 when none is). *)
Definition parseTags (f : IRpFile) (tag_addr : Z) : tags * IRpFile * Z :=
  let '(tag_magic, f1) := seekAndRead f tag_addr (sizeof_TAG_MAGIC L) in
  if negb (Nat.eqb (List.length tag_magic) (sizeof_TAG_MAGIC L)) then ([], f1, 0)
  else
  let data_len := file_size f1 - tag_addr - Z.of_nat (sizeof_TAG_MAGIC L) in
  if data_len <=? 0 then ([], f1, 0)
  else
  let '(tag_data, f2) := read f1 (Z.to_nat data_len) in
  if negb (Z.of_nat (List.length tag_data) =? data_len) then ([], f2, data_len)
  else
  let '(kv, isUtf8) := fold_left parse_line (lines tag_data) ([], false) in
  let kv := if isUtf8 then kv
            else map (fun p => (fst p, cp1252_sjis_to_utf8 (c_str (snd p)))) kv in
  (kv, f2, data_len).

(** [PSFPrivate] together with the [RomDataPrivate] state it uses. *)
Record PSFPrivate := mkPriv {
  file : option IRpFile;
  isValid : bool;
  fields : list field;
  metaData : option (list meta);
  psfHeader : list byte
}.

(** [PSF::PSF(IRpFile *file)] *)
Definition PSF_ctor (fopt : option IRpFile) : PSFPrivate :=
  match fopt with
  | None => mkPriv None false [] None (repeat Byte.x00 (sizeof_PSF_Header L))
  | Some f0 =>
    let '(bs, f1) := read (rewind f0) (sizeof_PSF_Header L) in
    let hdr := fill (sizeof_PSF_Header L) bs in
    if negb (Nat.eqb (List.length bs) (sizeof_PSF_Header L))
    then mkPriv None false [] None hdr
    else if magic_ok L hdr then mkPriv (Some f1) true [] None hdr
    else mkPriv None false [] None hdr
  end.

Definition tag_addr (d : PSFPrivate) : Z :=
  Z.of_nat (sizeof_PSF_Header L) + reserved_size L (psfHeader d) +
  compressed_prg_length L (psfHeader d).

Fixpoint assoc_Z {A} (tbl : list (Z * A)) (k : Z) : option A :=
  match tbl with
  | [] => None
  | (k', a) :: r => if k =? k' then Some a else assoc_Z r k
  end.

(** [PSFPrivate::getRippedByTagName] *)
Definition getRippedByTagName (v : Z) : list byte :=
  match assoc_Z (psfby_lkup_tbl L) v with
  | Some t => t
  | None => match psfby_lkup_tbl L with (_, t) :: _ => t | [] => [] end
  end.

Definition text (v : list byte) : field_value := FString (string_of_list_byte v).

Definition opt_field (title : string) (kv : tags) (key : string) : list field :=
  match find kv (list_byte_of_string key) with
  | Some v => [(title, text v)]
  | None => []
  end.

(** [PSF::loadFieldData]: the result and the updated object. *)
Definition loadFieldData (d : PSFPrivate) : Z * PSFPrivate :=
  match fields d, file d with
  | _ :: _, _ => (0, d)
  | [], None => (- EBADF, d)
  | [], Some f =>
    if negb (isValid d) then (- EIO, d)
    else
    let psf_version := version L (psfHeader d) in
    let f_system :=
      ("System"%string,
       FString match assoc_Z (sysname_lkup_tbl L) psf_version with
               | Some n => n
               | None => ("Unknown (0x" ++ fmt_02X psf_version ++ ")")%string
               end) in
    let '(kv, f', _) := parseTags f (tag_addr d) in
    let tag_fields :=
      match kv with
      | [] => []
      | _ =>
        opt_field "Title" kv "title" ++ opt_field "Artist" kv "artist" ++
        opt_field "Game" kv "game" ++ opt_field "Release Date" kv "year" ++
        opt_field "Genre" kv "genre" ++ opt_field "Copyright" kv "copyright" ++
        match find kv (getRippedByTagName psf_version) with
        | Some v => [("Ripped By"%string, text v)]
        | None => opt_field "Ripped By" kv "psfby"
        end ++
        opt_field "Volume" kv "volume" ++ opt_field "Duration" kv "length" ++
        opt_field "Fadeout Duration" kv "fade" ++
        opt_field "Comment" kv "comment"
      end in
    let fs := f_system :: tag_fields in
    (Z.of_nat (List.length fs),
     mkPriv (Some f') (isValid d) fs (metaData d) (psfHeader d))
  end.

Definition opt_meta (p : Property) (kv : tags) (key : string) : list meta :=
  match find kv (list_byte_of_string key) with
  | Some v => [(p, MString (string_of_list_byte v))]
  | None => []
  end.

(** The release year: [sscanf(value, "%04d%c", &year, &chr)]. *)
Definition release_year (v : list byte) : list meta :=
  let '(s, vals) := sscanf v [Dd 4; Dc] in
  let year := nth 0 vals 0 in
  let chr := nth 1 vals 0 in
  if (s =? 1) || ((s =? 2) && ((chr =? 45) || (chr =? 47))) then
    if (0 <=? year) && (year <? 10000) then [(ReleaseYear, MUInt year)] else []
  else [].

(** [PSF::loadMetaData]: the result and the updated object. *)
Definition loadMetaData (d : PSFPrivate) : Z * PSFPrivate :=
  match metaData d, file d with
  | Some _, _ => (0, d)
  | None, None => (- EBADF, d)
  | None, Some f =>
    if negb (isValid d) then (- EIO, d)
    else
    let '(kv, f', _) := parseTags f (tag_addr d) in
    let d' := mkPriv (Some f') (isValid d) (fields d) (metaData d) (psfHeader d) in
    match kv with
    | [] => (- EIO, d')
    | _ =>
      let md :=
        opt_meta Title kv "title" ++ opt_meta Artist kv "artist" ++
        opt_meta Album kv "game" ++
        match find kv (list_byte_of_string "year") with
        | Some v => release_year v
        | None => []
        end ++
        opt_meta Genre kv "genre" ++ opt_meta Copyright kv "copyright" ++
        match find kv (list_byte_of_string "length") with
        | Some v => [(Duration, MInteger (lengthToMs v))]
        | None => []
        end ++
        opt_meta Subject kv "comment" in
      (Z.of_nat (List.length md),
       mkPriv (Some f') (isValid d) (fields d) (Some md) (psfHeader d))
    end
  end.

End Code.

(** A layout used to run the reader on concrete files: the PSF file format
    (a 16-byte header "PSF", version, reserved size and program length as
    little-endian 32-bit words, CRC-32; the tag magic "[TAG]") and the
    version bytes of the PSF format. *)
Definition le32_at (off : nat) (bs : list byte) : Z :=
  BRSTM.le_load (firstn 4 (skipn off bs)).
Definition sample_layout : layout := {|
  sizeof_PSF_Header := 16;
  sizeof_TAG_MAGIC := 5;
  magic_ok := fun bs => if list_eq_dec Byte.byte_eq_dec (firstn 3 bs)
                             (list_byte_of_string "PSF") then true else false;
  version := fun bs => BRSTM.le_load (firstn 1 (skipn 3 bs));
  reserved_size := le32_at 4;
  compressed_prg_length := le32_at 8;
  sysname_lkup_tbl :=
    [(1, "Sony PlayStation"); (2, "Sony PlayStation 2"); (17, "Sega Saturn");
     (18, "Sega Dreamcast"); (19, "Sega Mega Drive"); (33, "Nintendo 64");
     (34, "Game Boy Advance"); (35, "Super NES"); (65, "Capcom QSound")]%string;
  psfby_lkup_tbl := map (fun p => (fst p, list_byte_of_string (snd p)))
    [(1, "psfby"); (2, "psfby"); (17, "ssfby"); (18, "dsfby"); (19, "msfby");
     (33, "usfby"); (34, "gsfby"); (35, "snsfby"); (65, "qsfby")]%string
|}.

End PSF.

(** * Properties *)

(** ** TextFuncs.cpp: the other text functions *)

Module TextFuncsMisc.

(** A [char16_t] or [char] buffer is the list of the elements readable
    from the pointer on; a read past its end is undefined behaviour,
    modelled as [None]. *)

(** [u16_strlen] *)
Fixpoint u16_strlen (wcs : list Z) : option nat :=
  match wcs with
  | [] => None
  | c :: r => if c =? 0 then Some O else option_map S (u16_strlen r)
  end.

(** The loop of [u16_strnlen]: [while ( *wcs++ && len < maxlen) len++;] *)
Fixpoint strnlen_loop (wcs : list Z) (len maxlen : nat) : option nat :=
  match wcs with
  | [] => None
  | c :: r =>
    if c =? 0 then Some len
    else if Nat.ltb len maxlen then strnlen_loop r (S len) maxlen
    else Some len
  end.

(** [u16_strnlen] *)
Definition u16_strnlen (wcs : list Z) (maxlen : nat) : option nat :=
  strnlen_loop wcs O maxlen.

(** [u16_strcmp]: [while ( *wcs1 && *wcs1 == *wcs2) {...}] then
    [*wcs1 - *wcs2]. *)
Fixpoint u16_strcmp (wcs1 wcs2 : list Z) : option Z :=
  match wcs1, wcs2 with
  | c1 :: r1, c2 :: r2 =>
    if negb (c1 =? 0) && (c1 =? c2) then u16_strcmp r1 r2 else Some (c1 - c2)
  | _, _ => None
  end.

(** The characters of a 16-bit C string, up to its terminator. *)
Fixpoint u16_cstr (wcs : list Z) : list Z :=
  match wcs with
  | [] => []
  | c :: r => if c =? 0 then [] else c :: u16_cstr r
  end.

(** The loop of [utf16_bswap]: [for (; len > 0; len--, str++) ret += __swab16( *str);] *)
Fixpoint bswap_loop (len : nat) (str : list Z) : option (list Z) :=
  match len with
  | O => Some []
  | S len' =>
    match str with
    | [] => None
    | c :: r => option_map (cons (swab16 c)) (bswap_loop len' r)
    end
  end.

(** [utf16_bswap(str, len)] *)
Definition utf16_bswap (str : list Z) (len : Z) : option (list Z) :=
  if len =? 0 then Some []
  else if len <? 0 then
    match u16_strlen str with
    | None => None
    | Some n =>
      let len := to_int (Z.of_nat n) in
      if len <=? 0 then Some [] else bswap_loop (Z.to_nat len) str
    end
  else bswap_loop (Z.to_nat len) str.

(** [trimEnd]: the loop from the last character down, [sz--] for every
    trailing space, then [str.resize(sz)]. *)
Fixpoint trim_loop (str : list byte) (p sz : nat) : nat :=
  match p with
  | O => sz
  | S p' =>
    if negb (Byte.eqb (nth p' str Byte.x00) " "%byte) then sz
    else trim_loop str p' (pred sz)
  end.

Definition trimEnd (str : list byte) : list byte :=
  firstn (trim_loop str (List.length str) (List.length str)) str.

(** [strlen] *)
Fixpoint strlen (s : list byte) : option nat :=
  match s with
  | [] => None
  | c :: r => if Byte.eqb c Byte.x00 then Some O else option_map S (strlen r)
  end.

(** The main loop of [dos2unix], run [n] times ([for (; len > 1; str_dos++,
    len--)]): the rest of the buffer, the output and the CRLF count. *)
Fixpoint d2u_loop (n : nat) (p : list byte) (acc : list byte) (lf : Z)
  : option (list byte * list byte * Z) :=
  match n with
  | O => Some (p, acc, lf)
  | S n' =>
    match p with
    | [] => None
    | c0 :: r =>
      if Byte.eqb c0 "013"%byte then
        match r with
        | [] => None
        | c1 :: r' =>
          if Byte.eqb c1 "010"%byte then d2u_loop n' r' (acc ++ ["010"%byte]) (lf + 1)
          else d2u_loop n' r (acc ++ [c0]) lf
        end
      else d2u_loop n' r (acc ++ [c0]) lf
    end
  end.

(** [dos2unix(str_dos, len, &lf_count)]: the output and [lf_count].
    [len = strlen(str_dos)] wraps to an [int]; a negative [len] then
    makes [str_unix.reserve(len)] ask for more than [max_size()], which
    throws [std::length_error], modelled as [None] like a read past the
    buffer. *)
Definition dos2unix (str_dos : list byte) (len : Z) : option (list byte * Z) :=
  match (if len <? 0 then option_map (fun n => to_int (Z.of_nat n)) (strlen str_dos)
         else Some len) with
  | None => None
  | Some len =>
    if len <? 0 then None else
    match d2u_loop (Z.to_nat (len - 1)) str_dos [] 0 with
    | None => None
    | Some (p, acc, lf) =>
      match p with
      | [] => None
      | c :: _ =>
        if Byte.eqb c "013"%byte then Some (acc ++ ["010"%byte], lf + 1)
        else Some (acc ++ [c], lf)
      end
    end
  end.

(** [ostringstream << int] in the "C" locale. *)
Definition fmt_int (z : Z) : string :=
  if z <? 0 then ("-" ++ fmt_u (- z))%string else fmt_u z.

(** [calc_frac_part] *)
Definition calc_frac_part (size mask : Z) : Z :=
  let f := f32_div (f32_of_uint (Z.land size (mask - 1))) (f32_of_uint mask) in
  let frac_part := f32_to_uint (f32_mul f (f32_of_uint 1000)) in
  let round_adj := if 5 <? frac_part mod 10 then 1 else 0 in
  frac_part / 10 + round_adj.

(** [std::setw(w) << std::setfill('0') << n] *)
Definition pad0 (w : nat) (s : string) : string :=
  (String.concat "" (repeat "0" (w - String.length s)) ++ s)%string.

(** [formatFileSize], with the messages of the "C" locale (no
    translation): [NC_("byte", "bytes", n)] is "byte" for [n = 1], the
    decimal point is ".", and "%1$s %2$s" joins value and suffix. *)
Definition formatFileSize (size : Z) : string :=
  let '(suffix, whole_part, frac_part) :=
    if size <? 0 then (None, to_int size, 0)
    else if size <? Z.shiftl 2 10 then
      (Some (if (to_int size =? 1)%Z then "byte" else "bytes")%string, to_int size, 0)
    else if size <? Z.shiftl 2 20 then
      (Some "KiB"%string, to_int (Z.shiftr size 10), calc_frac_part size (Z.shiftl 1 10))
    else if size <? Z.shiftl 2 30 then
      (Some "MiB"%string, to_int (Z.shiftr size 20), calc_frac_part size (Z.shiftl 1 20))
    else if size <? Z.shiftl 2 40 then
      (Some "GiB"%string, to_int (Z.shiftr size 30), calc_frac_part size (Z.shiftl 1 30))
    else if size <? Z.shiftl 2 50 then
      (Some "TiB"%string, to_int (Z.shiftr size 40), calc_frac_part size (Z.shiftl 1 40))
    else if size <? Z.shiftl 2 60 then
      (Some "PiB"%string, to_int (Z.shiftr size 50), calc_frac_part size (Z.shiftl 1 50))
    else
      (Some "EiB"%string, to_int (Z.shiftr size 60), calc_frac_part size (Z.shiftl 1 60))
  in
  let s_value := fmt_int whole_part in
  let s_value :=
    if Z.shiftl 2 10 <=? size then
      let '(frac_part, frac_digits) :=
        if 10 <=? whole_part then
          let round_adj := if 5 <? frac_part mod 10 then 1 else 0 in
          (frac_part / 10 + round_adj, 1%nat)
        else (frac_part, 2%nat) in
      (s_value ++ "." ++ pad0 frac_digits (fmt_u frac_part))%string
    else s_value in
  match suffix with
  | Some sfx => (s_value ++ " " ++ sfx)%string
  | None => s_value
  end.

(** The suffix of the [j]-th unit of [formatFileSize]. *)
Definition unit_name (j : nat) : string :=
  nth j ["bytes"; "KiB"; "MiB"; "GiB"; "TiB"; "PiB"; "EiB"]%string EmptyString.

(** The digits [formatFileSize] prints after the decimal point for a
    whole part [whole] and a [calc_frac_part] result [frac]. *)
Definition frac_text (whole frac : Z) : string :=
  if 10 <=? whole
  then pad0 1 (fmt_u (frac / 10 + (if 5 <? frac mod 10 then 1 else 0)))
  else pad0 2 (fmt_u frac).

End TextFuncsMisc.

Module BRSTMProofs.
Import BRSTM.

(** The conditions under which [BRSTM::BRSTM] gives up, written on the
    bytes of the file: the primary-header read is short, detection fails,
    the HEAD offset or size is out of bounds, the HEAD header read is
    short, its magic is wrong, the part-1 offset is out of bounds, or the
    part-1 read is short. *)
Definition ctor_fails (L : layout) (f : IRpFile) : Prop :=
  let bs := firstn (sizeof_Header L) (f_data f) in
  let hdr := fill (sizeof_Header L) bs in
  let h := decode_Header L hdr in
  let sw32 x := if bom h =? BRSTM_BOM_SWAP L then swab32 x else x in
  let ho := sw32 (head_offset h) in
  let hs := sw32 (head_size h) in
  let hb := fst (seekAndRead f ho (sizeof_HEAD_Header L)) in
  let hh := decode_HEAD_Header L hb in
  let h1 := sw32 (head1_offset hh) in
  let cb := fst (seekAndRead f (u32 (ho + 8 + h1)) (sizeof_HEAD_Chunk1 L)) in
  List.length bs <> sizeof_Header L \/
  isRomSupported_static L
    (Some (mkInfo 0 (Z.of_nat (sizeof_Header L)) (Some hdr))) < 0 \/
  ho = 0 \/ hs < Z.of_nat (sizeof_HEAD_Header L) \/
  List.length hb <> sizeof_HEAD_Header L \/
  hh_magic hh <> cpu_to_be32 L (BRSTM_HEAD_MAGIC L) \/
  h1 < u64 (Z.of_nat (sizeof_HEAD_Header L) - 8) \/
  List.length cb <> sizeof_HEAD_Chunk1 L.

Lemma read_data (f : IRpFile) (n : nat) : f_data (snd (read f n)) = f_data f.
Proof. reflexivity. Qed.

Lemma rewind_read (f : IRpFile) (n : nat) :
  fst (read (rewind f) n) = firstn n (f_data f).
Proof. reflexivity. Qed.

Lemma seekAndRead_fst (f g : IRpFile) (a : Z) (n : nat) :
  f_data f = f_data g -> fst (seekAndRead f a n) = fst (seekAndRead g a n).
Proof.
  intros E. unfold seekAndRead, read. destruct (a <? 0); simpl; now rewrite ?E.
Qed.

Lemma seekAndRead_data (f : IRpFile) (a : Z) (n : nat) :
  f_data (snd (seekAndRead f a n)) = f_data f.
Proof. unfold seekAndRead. destruct (a <? 0); reflexivity. Qed.

Ltac not_ctor b := lazymatch b with true => fail | false => fail | _ => idtac end.

Ltac split_all :=
  repeat (match goal with
  | |- context [match ?p with (_, _) => _ end] =>
      let E := fresh "E" in destruct p eqn:E
  | |- context [if negb ?b then _ else _] =>
      not_ctor b; let E := fresh "B" in destruct b eqn:E
  | |- context [if ?b then _ else _] =>
      not_ctor b; let E := fresh "B" in destruct b eqn:E
  end; cbv beta iota zeta in * ).

Lemma ctor_caches_empty (L : layout) (fopt : option IRpFile) :
  fields (BRSTM_ctor L fopt) = [] /\ metaData (BRSTM_ctor L fopt) = None.
Proof.
  unfold BRSTM_ctor. destruct fopt as [f|]; [|split; reflexivity].
  cbv zeta. split_all; split; reflexivity.
Qed.

Lemma ctor_invalid_released (L : layout) (fopt : option IRpFile) :
  isValid (BRSTM_ctor L fopt) = false -> file (BRSTM_ctor L fopt) = None.
Proof.
  unfold BRSTM_ctor. destruct fopt as [f|]; [|reflexivity].
  cbv zeta. split_all; simpl; congruence.
Qed.

Lemma ctor_valid_open (L : layout) (fopt : option IRpFile) :
  isValid (BRSTM_ctor L fopt) = true -> exists f, file (BRSTM_ctor L fopt) = Some f.
Proof.
  unfold BRSTM_ctor. destruct fopt as [f|]; [|discriminate].
  cbv zeta. split_all; simpl; try discriminate; eauto.
Qed.

Lemma ctor_fails_invalid (L : layout) (f : IRpFile) :
  ctor_fails L f -> isValid (BRSTM_ctor L (Some f)) = false.
Proof.
  intros H. unfold BRSTM_ctor. cbv zeta.
  destruct (read (rewind f) (sizeof_Header L)) as [bs f1] eqn:R.
  assert (Hbs : bs = firstn (sizeof_Header L) (f_data f))
    by (rewrite <- rewind_read, R; reflexivity).
  assert (D1 : f_data f1 = f_data f)
    by (change f1 with (snd (bs, f1)); rewrite <- R; reflexivity).
  destruct (Nat.eqb (List.length bs) (sizeof_Header L)) eqn:B1;
    [|reflexivity]; cbn [negb].
  destruct (0 <=? isRomSupported_static L _) eqn:B2; [|reflexivity]; cbn [negb].
  unfold brstm32_to_cpu; cbn [needsByteswap set_file].
  match goal with |- context [if ?c then invalidate _ else _] =>
    destruct c eqn:B3; [reflexivity|] end.
  match goal with |- context [seekAndRead f1 ?a ?n] =>
    destruct (seekAndRead f1 a n) as [hb f2] eqn:S2 end.
  assert (D2 : f_data f2 = f_data f1)
    by (change f2 with (snd (hb, f2)); rewrite <- S2; apply seekAndRead_data).
  destruct (Nat.eqb (List.length hb) (sizeof_HEAD_Header L)) eqn:B4;
    [|reflexivity]; cbn [negb].
  match goal with |- context [if negb ?c then invalidate _ else _] =>
    destruct c eqn:B5; [|reflexivity] end; cbn [negb].
  match goal with |- context [if ?c then invalidate _ else _] =>
    destruct c eqn:B6; [reflexivity|] end.
  match goal with |- context [seekAndRead f2 ?a ?n] =>
    destruct (seekAndRead f2 a n) as [cb f3] eqn:S3 end.
  destruct (Nat.eqb (List.length cb) (sizeof_HEAD_Chunk1 L)) eqn:B7;
    [|reflexivity]; cbn [negb].
  exfalso. subst bs. unfold ctor_fails in H. cbv zeta in H.
  rewrite (seekAndRead_fst f f1), S2 in H by congruence. cbn [fst] in H.
  rewrite (seekAndRead_fst f f2), S3 in H by congruence. cbn [fst] in H.
  apply Nat.eqb_eq in B1, B4, B7.
  apply Z.leb_le in B2. apply Z.eqb_eq in B5. apply Z.ltb_ge in B6.
  apply orb_false_iff in B3 as [B3 B3']. apply Z.eqb_neq in B3.
  apply Z.ltb_ge in B3'.
  destruct H as [H|[H|[H|[H|[H|[H|[H|H]]]]]]]; lia.
Qed.

(** ** C1: repeated loads *)

(** C1 (counterexample): on the sample BRSTM file the first
    [loadFieldData] returns 7 but the second one returns 0, not the
    count of the first call. *)
Lemma C1_repeat_load_returns_zero :
  let d := BRSTM_ctor sample_layout (Some (file_of sample_file)) in
  isValid d = true /\
  fst (loadFieldData sample_layout d) = 7 /\
  fst (loadFieldData sample_layout (snd (loadFieldData sample_layout d))) = 0.
Proof. vm_compute. repeat split. Qed.

(** C1 (amended): for every valid BRSTM instance, the first
    [loadFieldData] returns the number of fields it caches (at least 7)
    without touching the file; a second call returns 0 and leaves the
    instance, its cached fields and its file (no byte read) unchanged.
    Likewise, when the first [loadMetaData] returns, it returns 3, and a
    second call returns 0 with the instance unchanged. *)
Theorem C1_second_load_cached (L : layout) (fopt : option IRpFile) :
  isValid (BRSTM_ctor L fopt) = true ->
  let d := BRSTM_ctor L fopt in
  let '(n1, d1) := loadFieldData L d in
  n1 = Z.of_nat (List.length (fields d1)) /\ 7 <= n1 /\
  file d1 = file d /\ loadFieldData L d1 = (0, d1) /\
  (forall n2 d2, loadMetaData L d = Some (n2, d2) ->
     n2 = 3 /\ file d2 = file d /\ metaData d2 <> None /\
     loadMetaData L d2 = Some (0, d2)).
Proof.
  intros V. cbv zeta.
  destruct (ctor_caches_empty L fopt) as [F M].
  destruct (ctor_valid_open L fopt V) as [f Ff].
  set (d := BRSTM_ctor L fopt) in *.
  unfold loadFieldData at 1. rewrite F, Ff, V. cbn [negb].
  match goal with |- context [if negb ?c then _ else _] =>
    destruct c; simpl; refine (conj _ (conj _ (conj _ (conj _ _))));
    try lia; try congruence; try reflexivity end.
  all: intros n2 d2 Hm; unfold loadMetaData in Hm; rewrite M, Ff, V in Hm;
    cbn [negb] in Hm;
    destruct (TextFuncs.convSampleToMs _ _); [|discriminate];
    injection Hm as <- <-; refine (conj _ (conj _ (conj _ _)));
    simpl; first [reflexivity | congruence | discriminate].
Qed.

Lemma C1_second_load_cached_witness :
  isValid (BRSTM_ctor sample_layout (Some (file_of sample_file))) = true /\
  (let d := BRSTM_ctor sample_layout (Some (file_of sample_file)) in
   let '(n1, d1) := loadFieldData sample_layout d in
   n1 = Z.of_nat (List.length (fields d1)) /\ 7 <= n1 /\
   file d1 = file d /\ loadFieldData sample_layout d1 = (0, d1) /\
   (forall n2 d2, loadMetaData sample_layout d = Some (n2, d2) ->
      n2 = 3 /\ file d2 = file d /\ metaData d2 <> None /\
      loadMetaData sample_layout d2 = Some (0, d2))).
Proof.
  assert (V : isValid (BRSTM_ctor sample_layout (Some (file_of sample_file)))
              = true) by (vm_compute; reflexivity).
  split; [exact V|].
  exact (C1_second_load_cached sample_layout (Some (file_of sample_file)) V).
Defined.

(** ** C2: failures of the constructor *)

(** C2: whenever the primary-header read is short, detection fails, a
    HEAD bounds check fails, the HEAD magic is wrong or a chunk read is
    short, the instance is invalid, its file reference is dropped, and
    both loaders return [-EBADF] without producing data. *)
Theorem C2_ctor_failure_invalidates (L : layout) (f : IRpFile) :
  ctor_fails L f ->
  let d := BRSTM_ctor L (Some f) in
  isValid d = false /\ file d = None /\
  loadFieldData L d = (- EBADF, d) /\ loadMetaData L d = Some (- EBADF, d).
Proof.
  intros H. cbv zeta.
  pose proof (ctor_fails_invalid L f H) as V.
  pose proof (ctor_invalid_released L (Some f) V) as Fn.
  destruct (ctor_caches_empty L (Some f)) as [F M].
  unfold loadFieldData, loadMetaData. rewrite F, M, Fn, V. repeat split.
Qed.

(** A file cut after 10 bytes of the sample BRSTM file. *)
Lemma C2_ctor_failure_invalidates_witness :
  ctor_fails sample_layout (file_of (firstn 10 sample_file)) /\
  let d := BRSTM_ctor sample_layout (Some (file_of (firstn 10 sample_file))) in
  isValid d = false /\ file d = None /\
  loadFieldData sample_layout d = (- EBADF, d) /\
  loadMetaData sample_layout d = Some (- EBADF, d).
Proof.
  assert (H : ctor_fails sample_layout (file_of (firstn 10 sample_file))).
  { unfold ctor_fails. cbv zeta. left. vm_compute. intro E. discriminate E. }
  split; [exact H | apply (C2_ctor_failure_invalidates sample_layout _ H)].
Defined.

(** ** C3: detection *)

(** C3: [isRomSupported_static] returns 0 or -1; it returns a value
    [>= 0] exactly when the buffer is present at address 0 with at least
    [sizeof(BRSTM_Header)] bytes, the magic matches, the byte-order mark is
    one of the two permitted values, the chunk count (byteswapped when the
    mark says so) is at least 2, and the HEAD and DATA offsets and sizes
    are non-zero. *)
Theorem C3_isRomSupported_iff (L : layout) (info : option DetectInfo) :
  BRSTM_BOM_HOST L <> BRSTM_BOM_SWAP L ->
  (isRomSupported_static L info = 0 \/ isRomSupported_static L info = -1) /\
  (0 <= isRomSupported_static L info <->
   exists i buf, info = Some i /\ pData i = Some buf /\ addr i = 0 /\
     Z.of_nat (sizeof_Header L) <= size i /\
     let h := decode_Header L buf in
     magic h = cpu_to_be32 L (BRSTM_MAGIC L) /\
     (bom h = BRSTM_BOM_HOST L \/ bom h = BRSTM_BOM_SWAP L) /\
     2 <= (if bom h =? BRSTM_BOM_SWAP L then swab16 (chunk_count h)
           else chunk_count h) /\
     head_offset h <> 0 /\ head_size h <> 0 /\
     data_offset h <> 0 /\ data_size h <> 0).
Proof.
  intros Hbom.
  destruct info as [i|].
  2:{ split; [right; reflexivity|]. split; [simpl; lia|].
      intros (i & buf & E & _). discriminate E. }
  unfold isRomSupported_static.
  destruct (pData i) as [buf|] eqn:P.
  2:{ split; [right; reflexivity|]. split; [lia|].
      intros (i' & buf & E & P' & _). injection E as <-. congruence. }
  set (h := decode_Header L buf).
  destruct (addr i =? 0) eqn:A; cbn [negb orb];
  [|split; [right; reflexivity|]; split; [lia|];
    intros (i' & buf' & E & _ & A' & _); injection E as <-;
    apply Z.eqb_neq in A; contradiction].
  apply Z.eqb_eq in A.
  destruct (size i <? Z.of_nat (sizeof_Header L)) eqn:S;
  [split; [right; reflexivity|]; split; [lia|];
   intros (i' & buf' & E & _ & _ & S' & _); injection E as <-;
   apply Z.ltb_lt in S; lia|].
  apply Z.ltb_ge in S.
  destruct (magic h =? cpu_to_be32 L (BRSTM_MAGIC L)) eqn:Mg; cbn [negb];
  [|split; [right; reflexivity|]; split; [lia|];
    intros (i' & buf' & E & P' & _ & _ & Hm & _); injection E as <-;
    rewrite P in P'; injection P' as <-; apply Z.eqb_neq in Mg;
    contradiction].
  apply Z.eqb_eq in Mg.
  destruct (bom h =? BRSTM_BOM_HOST L) eqn:BH.
  - apply Z.eqb_eq in BH.
    assert (NS : (bom h =? BRSTM_BOM_SWAP L) = false)
      by (apply Z.eqb_neq; congruence).
    destruct (chunk_count h <? 2) eqn:C;
    [split; [right; reflexivity|]; split; [lia|];
     intros (i' & buf' & E & P' & _ & _ & _ & _ & Hc & _); injection E as <-;
     rewrite P in P'; injection P' as <-; fold h in Hc; rewrite NS in Hc;
     apply Z.ltb_lt in C; lia|].
    apply Z.ltb_ge in C.
    destruct ((head_offset h =? 0) || (head_size h =? 0) ||
              (data_offset h =? 0) || (data_size h =? 0)) eqn:Z0.
    + split; [right; reflexivity|]. split; [lia|].
      intros (i' & buf' & E & P' & _ & _ & _ & _ & _ & H1 & H2 & H3 & H4).
      injection E as <-. rewrite P in P'. injection P' as <-. fold h in H1, H2, H3, H4.
      repeat rewrite orb_true_iff in Z0. rewrite !Z.eqb_eq in Z0. tauto.
    + split; [left; reflexivity|]. split; [intros _|lia].
      repeat rewrite orb_false_iff in Z0. rewrite !Z.eqb_neq in Z0.
      exists i, buf. fold h. rewrite NS. repeat split; tauto.
  - destruct (bom h =? BRSTM_BOM_SWAP L) eqn:BS.
    + apply Z.eqb_eq in BS.
      destruct (swab16 (chunk_count h) <? 2) eqn:C;
      [split; [right; reflexivity|]; split; [lia|];
       intros (i' & buf' & E & P' & _ & _ & _ & _ & Hc & _); injection E as <-;
       rewrite P in P'; injection P' as <-; fold h in Hc;
       rewrite (proj2 (Z.eqb_eq _ _) BS) in Hc; apply Z.ltb_lt in C; lia|].
      apply Z.ltb_ge in C.
      destruct ((head_offset h =? 0) || (head_size h =? 0) ||
                (data_offset h =? 0) || (data_size h =? 0)) eqn:Z0.
      * split; [right; reflexivity|]. split; [lia|].
        intros (i' & buf' & E & P' & _ & _ & _ & _ & _ & H1 & H2 & H3 & H4).
        injection E as <-. rewrite P in P'. injection P' as <-.
        fold h in H1, H2, H3, H4.
        repeat rewrite orb_true_iff in Z0. rewrite !Z.eqb_eq in Z0. tauto.
      * split; [left; reflexivity|]. split; [intros _|lia].
        repeat rewrite orb_false_iff in Z0. rewrite !Z.eqb_neq in Z0.
        exists i, buf. fold h. rewrite (proj2 (Z.eqb_eq _ _) BS).
        repeat split; tauto.
    + split; [right; reflexivity|]. split; [lia|].
      intros (i' & buf' & E & P' & _ & _ & _ & Hb & _).
      injection E as <-. rewrite P in P'. injection P' as <-. fold h in Hb.
      apply Z.eqb_neq in BH, BS. tauto.
Qed.

(** The sample header, little-endian host. *)
Lemma C3_isRomSupported_iff_witness :
  let info := Some (mkInfo 0 40 (Some (firstn 40 sample_file))) in
  BRSTM_BOM_HOST sample_layout <> BRSTM_BOM_SWAP sample_layout /\
  isRomSupported_static sample_layout info = 0 /\
  ((isRomSupported_static sample_layout info = 0 \/
    isRomSupported_static sample_layout info = -1) /\
   (0 <= isRomSupported_static sample_layout info <->
    exists i buf, info = Some i /\ pData i = Some buf /\ addr i = 0 /\
     Z.of_nat (sizeof_Header sample_layout) <= size i /\
     let h := decode_Header sample_layout buf in
     magic h = cpu_to_be32 sample_layout (BRSTM_MAGIC sample_layout) /\
     (bom h = BRSTM_BOM_HOST sample_layout \/
      bom h = BRSTM_BOM_SWAP sample_layout) /\
     2 <= (if bom h =? BRSTM_BOM_SWAP sample_layout
           then swab16 (chunk_count h) else chunk_count h) /\
     head_offset h <> 0 /\ head_size h <> 0 /\
     data_offset h <> 0 /\ data_size h <> 0)).
Proof.
  cbv zeta.
  assert (H : BRSTM_BOM_HOST sample_layout <> BRSTM_BOM_SWAP sample_layout)
    by (vm_compute; intro E; discriminate E).
  split; [exact H|]. split; [vm_compute; reflexivity|].
  exact (C3_isRomSupported_iff sample_layout _ H).
Defined.

End BRSTMProofs.

Module N64Proofs.
Import N64.

Lemma swap16_involutive (n : nat) (l : list byte) :
  (List.length l <= n)%nat -> byte_swap_16_array (swap_units16 l) = l.
Proof.
  revert l. induction n as [|n IH]; intros l Hl.
  - destruct l; [reflexivity|simpl in Hl; lia].
  - destruct l as [|a [|b r]]; try reflexivity.
    simpl. f_equal. f_equal. apply IH. simpl in Hl. lia.
Qed.

Lemma unswap2_involutive (n : nat) (l : list byte) :
  (List.length l <= n)%nat -> unswap2_array (swap_halves32 l) = l.
Proof.
  revert l. induction n as [|n IH]; intros l Hl.
  - destruct l; [reflexivity|simpl in Hl; lia].
  - destruct l as [|a [|b [|c [|d r]]]]; try reflexivity.
    simpl. do 4 f_equal. apply IH. simpl in Hl. lia.
Qed.

Lemma swap32_involutive (n : nat) (l : list byte) :
  (List.length l <= n)%nat -> byte_swap_32_array (words_le32 l) = l.
Proof.
  revert l. induction n as [|n IH]; intros l Hl.
  - destruct l; [reflexivity|simpl in Hl; lia].
  - destruct l as [|a [|b [|c [|d r]]]]; try reflexivity.
    simpl. do 4 f_equal. apply IH. simpl in Hl. lia.
Qed.

Lemma swap_units16_length (n : nat) (l : list byte) :
  (List.length l <= n)%nat -> List.length (swap_units16 l) = List.length l.
Proof.
  revert l. induction n as [|n IH]; intros l Hl.
  - destruct l; [reflexivity|simpl in Hl; lia].
  - destruct l as [|a [|b r]]; try reflexivity.
    simpl in *. rewrite IH by lia. reflexivity.
Qed.

Lemma swap_halves32_length (n : nat) (l : list byte) :
  (List.length l <= n)%nat -> List.length (swap_halves32 l) = List.length l.
Proof.
  revert l. induction n as [|n IH]; intros l Hl.
  - destruct l; [reflexivity|simpl in Hl; lia].
  - destruct l as [|a [|b [|c [|d r]]]]; try reflexivity.
    simpl in *. rewrite IH by lia. reflexivity.
Qed.

Lemma words_le32_length (n : nat) (l : list byte) :
  (List.length l <= n)%nat -> List.length (words_le32 l) = List.length l.
Proof.
  revert l. induction n as [|n IH]; intros l Hl.
  - destruct l; [reflexivity|simpl in Hl; lia].
  - destruct l as [|a [|b [|c [|d r]]]]; try reflexivity.
    simpl in *. rewrite IH by lia. reflexivity.
Qed.

Lemma encode_length (v : variant) (l : list byte) :
  List.length (encode v l) = List.length l.
Proof.
  destruct v; simpl;
    [reflexivity | apply (swap_units16_length (List.length l))
    | apply (swap_halves32_length (List.length l))
    | apply (words_le32_length (List.length l))]; lia.
Qed.

(** A header split into its first 8 bytes and the rest. *)
Lemma encode_app8 (v : variant) (h8 r : list byte) :
  List.length h8 = 8%nat -> encode v (h8 ++ r) = encode v h8 ++ encode v r.
Proof.
  intros Hl.
  do 8 (destruct h8 as [|? h8]; [discriminate|]).
  destruct h8; [|discriminate].
  destruct v; reflexivity.
Qed.

Lemma firstn_app_exact (l r : list byte) (n : nat) :
  List.length l = n -> firstn n (l ++ r) = l.
Proof.
  intros <-. rewrite firstn_app, firstn_all, Nat.sub_diag. simpl.
  apply app_nil_r.
Qed.

Lemma fill_exact (n : nat) (l : list byte) : List.length l = n -> fill n l = l.
Proof. intros H. unfold fill. apply firstn_app_exact. exact H. Qed.

(** The detected type of an encoded Z64 header. *)
Lemma detect_encode (v : variant) (z64 : list byte) :
  List.length z64 = sizeof_RomHeader ->
  firstn 8 z64 = be_bytes 8 N64_Z64_MAGIC ->
  isRomSupported_static 0 (Z.of_nat sizeof_RomHeader) (Some (encode v z64)) =
  variant_id v.
Proof.
  intros Hl Hm.
  assert (H8 : List.length (firstn 8 z64) = 8%nat)
    by (rewrite Hm; reflexivity).
  rewrite <- (firstn_skipn 8 z64).
  rewrite encode_app8 by exact H8.
  unfold isRomSupported_static, magic64_is.
  rewrite firstn_app_exact by (rewrite encode_length; exact H8).
  rewrite Hm. destruct v; vm_compute; reflexivity.
Qed.

(** ** C4: the four container variants *)

(** C4: a 64-byte Z64 (canonical) header, stored as any of the four
    container variants and followed by any data, is parsed by [N64::N64]
    into a valid instance of that variant whose header is the canonical
    one, byte for byte, and so equal to the header parsed from the
    canonical Z64 file. *)
Theorem C4_variant_roundtrip (v : variant) (z64 rest : list byte) :
  List.length z64 = sizeof_RomHeader ->
  firstn 8 z64 = be_bytes 8 N64_Z64_MAGIC ->
  let d := N64_ctor (Some (file_of (encode v z64 ++ rest))) in
  isValid d = true /\ romType d = variant_id v /\ romHeader d = z64 /\
  romHeader d = romHeader (N64_ctor (Some (file_of (z64 ++ rest)))).
Proof.
  intros Hl Hm. cbv zeta.
  assert (Gen : forall w,
     isValid (N64_ctor (Some (file_of (encode w z64 ++ rest)))) = true /\
     romType (N64_ctor (Some (file_of (encode w z64 ++ rest)))) = variant_id w /\
     romHeader (N64_ctor (Some (file_of (encode w z64 ++ rest)))) = z64).
  { intros w. unfold N64_ctor.
    cbv [read rewind file_of f_data f_pos f_nread].
    rewrite skipn_O.
    rewrite firstn_app_exact by (rewrite encode_length; exact Hl).
    rewrite encode_length, Hl. cbn [Nat.eqb negb sizeof_RomHeader].
    rewrite fill_exact by (rewrite encode_length; exact Hl).
    rewrite detect_encode by assumption.
    destruct w; cbn -[encode].
    - repeat split.
    - rewrite (swap16_involutive (List.length z64)) by lia. repeat split.
    - rewrite (unswap2_involutive (List.length z64)) by lia. repeat split.
    - rewrite (swap32_involutive (List.length z64)) by lia. repeat split. }
  destruct (Gen v) as (V & T & H).
  split; [exact V|]. split; [exact T|]. split; [exact H|].
  rewrite H. destruct (Gen Z64) as (_ & _ & H0). cbn [encode] in H0.
  now rewrite H0.
Qed.

(** A Z64 header of 64 bytes. *)
Definition z64_sample : list byte :=
  be_bytes 8 N64_Z64_MAGIC ++ repeat "065"%byte 56.

(** Its V64 image, parsed. *)
Lemma C4_variant_roundtrip_witness :
  List.length z64_sample = sizeof_RomHeader /\
  firstn 8 z64_sample = be_bytes 8 N64_Z64_MAGIC /\
  let d := N64_ctor (Some (file_of (encode V64 z64_sample ++ []))) in
  isValid d = true /\ romType d = variant_id V64 /\ romHeader d = z64_sample /\
  romHeader d = romHeader (N64_ctor (Some (file_of (z64_sample ++ [])))).
Proof.
  assert (H1 : List.length z64_sample = sizeof_RomHeader) by reflexivity.
  assert (H2 : firstn 8 z64_sample = be_bytes 8 N64_Z64_MAGIC) by reflexivity.
  split; [exact H1|]. split; [exact H2|].
  exact (C4_variant_roundtrip V64 z64_sample [] H1 H2).
Defined.

End N64Proofs.

Module TextFuncsProofs.
Import TextFuncs.

(** ** C5: zero sample rate *)

(** A BRSTM file equal to the sample one except for a sample rate of 0 in
    HEAD part 1. *)
Definition brstm_rate0 : list byte :=
  firstn 100 BRSTM.sample_file ++ bytes_of_Z [0; 0] ++
  skipn 102 BRSTM.sample_file.

(** C5 (code bug): [formatSampleAsTime] detects a zero rate and returns
    the sentinel ["#DIV/0!"], but [convSampleToMs] divides by the rate
    unconditionally, and [BRSTM::loadMetaData] calls it with the rate read
    from the file: for any layout, every valid object with an open file,
    no metadata yet and a sample rate of 0 divides by zero in
    [loadMetaData]; the sample file with its rate zeroed is such an
    object. *)
Theorem C5_zero_rate_division :
  formatSampleAsTime 44100 0 = "#DIV/0!"%string /\
  (forall sample, convSampleToMs sample 0 = None) /\
  (forall (L : BRSTM.layout) (d : BRSTM.BRSTMPrivate),
     BRSTM.metaData d = None -> BRSTM.file d <> None -> BRSTM.isValid d = true ->
     BRSTM.brstm16_to_cpu d
       (BRSTM.sample_rate (BRSTM.decode_HEAD_Chunk1 L (BRSTM.headChunk1 d))) = 0 ->
     BRSTM.loadMetaData L d = None) /\
  let d := BRSTM.BRSTM_ctor BRSTM.sample_layout (Some (file_of brstm_rate0)) in
  BRSTM.isValid d = true /\
  BRSTM.loadMetaData BRSTM.sample_layout d = None.
Proof.
  split; [vm_compute; reflexivity|].
  split; [intros sample; reflexivity|].
  split; [|vm_compute; split; reflexivity].
  intros L d Hm Hf Hv Hr. unfold BRSTM.loadMetaData.
  rewrite Hm. destruct (BRSTM.file d) as [f|]; [|contradiction].
  rewrite Hv. cbn [negb]. rewrite Hr. reflexivity.
Qed.

(** ** C6: time display vectors *)

(** C6 (counterexample): 44100 samples at 44100 Hz are displayed as
    ["0:01.00"] (one second, in m:ss.cs), not ["1:00.00"]. *)
Lemma C6_one_second_display :
  formatSampleAsTime 44100 44100 = "0:01.00"%string /\
  formatSampleAsTime 44100 44100 <> "1:00.00"%string.
Proof. split; [vm_compute; reflexivity | vm_compute; discriminate]. Qed.

(** C6 (amended): [formatSampleAsTime 0 44100 = "0:00.00"],
    [formatSampleAsTime 44100 44100 = "0:01.00"], and one minute of
    samples ([2646000] at 44100 Hz) gives ["1:00.00"]. *)
Theorem C6_format_vectors :
  formatSampleAsTime 0 44100 = "0:00.00"%string /\
  formatSampleAsTime 44100 44100 = "0:01.00"%string /\
  formatSampleAsTime 2646000 44100 = "1:00.00"%string.
Proof. vm_compute. repeat split. Qed.

End TextFuncsProofs.

Module PSFProofs.
Import PSF.

Definition b := list_byte_of_string.

(** ** C7: duration strings *)

(** C7 (code bug): [lengthToMs] gives 83456 for "1:23.456", 3723000 for
    "1:02:03" and 0 for "abc", but 5063500 for "83.5": the seconds.decimal
    branch adds [min * 60 * 1000], where [min] still holds the 83 stored
    by the earlier "%u:%u.%u" attempt. For the same reason "83" gives 83,
    the seconds branch returning [sec] rather than milliseconds. *)
Theorem C7_lengthToMs_vectors :
  lengthToMs (b "1:23.456") = 83456 /\
  lengthToMs (b "1:02:03") = 3723000 /\
  lengthToMs (b "abc") = 0 /\
  lengthToMs (b "83.5") = 5063500 /\
  lengthToMs (b "83") = 83.
Proof. vm_compute. repeat split. Qed.

(** ** C8: size of the tag buffer *)

(** C8 (code bug): the comment "Maximum of 16 KB" notwithstanding,
    [parseTags] allocates [file->size() - tag_addr - 5] bytes for the tag
    data, whatever that size: whenever the tag magic is read in full and
    data follows, the buffer has exactly that size. *)
Theorem C8_tag_buffer_size (L : layout) (conv : list byte -> list byte)
    (f : IRpFile) (tag_addr : Z) :
  List.length (fst (seekAndRead f tag_addr (sizeof_TAG_MAGIC L))) =
    sizeof_TAG_MAGIC L ->
  0 < file_size f - tag_addr - Z.of_nat (sizeof_TAG_MAGIC L) ->
  snd (parseTags L conv f tag_addr) =
    file_size f - tag_addr - Z.of_nat (sizeof_TAG_MAGIC L).
Proof.
  intros Hm Hd. unfold parseTags.
  destruct (seekAndRead f tag_addr (sizeof_TAG_MAGIC L)) as [tm f1] eqn:S.
  simpl in Hm. rewrite Hm, Nat.eqb_refl. cbn [negb].
  assert (D : f_data f1 = f_data f).
  { change f1 with (snd (tm, f1)). rewrite <- S.
    apply BRSTMProofs.seekAndRead_data. }
  replace (file_size f1) with (file_size f)
    by (unfold file_size; rewrite D; reflexivity).
  destruct (file_size f - tag_addr - Z.of_nat (sizeof_TAG_MAGIC L) <=? 0) eqn:Le;
    [apply Z.leb_le in Le; lia|].
  destruct (read f1 _) as [td f2].
  destruct (negb _); [reflexivity|].
  destruct (fold_left _ _ _). reflexivity.
Qed.

(** A PSF file: header with empty reserved area and program, then "[TAG]"
    and 40000 bytes of tag data. *)
Definition big_psf : list byte :=
  b "PSF" ++ bytes_of_Z (1 :: repeat 0 12) ++ b "[TAG]" ++
  repeat "097"%byte (Z.to_nat 40000).

Lemma C8_tag_buffer_size_witness :
  List.length (fst (seekAndRead (file_of big_psf) 16
     (sizeof_TAG_MAGIC sample_layout))) = sizeof_TAG_MAGIC sample_layout /\
  0 < file_size (file_of big_psf) - 16 - Z.of_nat (sizeof_TAG_MAGIC sample_layout) /\
  snd (parseTags sample_layout (fun v => v) (file_of big_psf) 16) = 40000.
Proof.
  assert (H1 : List.length (fst (seekAndRead (file_of big_psf) 16
     (sizeof_TAG_MAGIC sample_layout))) = sizeof_TAG_MAGIC sample_layout)
    by (vm_compute; reflexivity).
  assert (H2 : 0 < file_size (file_of big_psf) - 16 -
                   Z.of_nat (sizeof_TAG_MAGIC sample_layout))
    by (vm_compute; reflexivity).
  split; [exact H1|]. split; [exact H2|].
  rewrite (C8_tag_buffer_size sample_layout (fun v => v) _ _ H1 H2).
  vm_compute. reflexivity.
Defined.

(** ** C9: repeated keys *)

(** The key (lowered) and value that the loop body takes from a line, if
    the line is a non-empty [key=value] line whose key and value lengths
    are positive once cast to [int]. *)
Definition line_entry (line : list byte) : option (list byte * list byte) :=
  match line with
  | [] => None
  | _ =>
    match split_eq line with
    | Some (k, v) =>
      let k_len := to_int (Z.of_nat (List.length k)) in
      let v_len := to_int (Z.of_nat (List.length v)) in
      if (0 <? k_len) && (0 <? v_len)
      then Some (map CLib.tolower (firstn (Z.to_nat k_len) k),
                 firstn (Z.to_nat v_len) v)
      else None
    | None => None
    end
  end.

(** The value of the first line of [ls] whose key is [k]. *)
Fixpoint first_value (ls : list (list byte)) (k : list byte)
  : option (list byte) :=
  match ls with
  | [] => None
  | l :: r =>
    match line_entry l with
    | Some (k', v) =>
      if list_eq_dec Byte.byte_eq_dec k k' then Some v else first_value r k
    | None => first_value r k
    end
  end.

Lemma parse_line_map (acc : tags * bool) (line : list byte) :
  fst (parse_line acc line) =
  match line_entry line with
  | Some (k, v) => emplace (fst acc) k v
  | None => fst acc
  end.
Proof.
  destruct acc as [kv u]. destruct line as [|c r]; [reflexivity|].
  unfold parse_line, line_entry.
  destruct (split_eq (c :: r)) as [[k v]|]; [|reflexivity].
  destruct (_ && _); reflexivity.
Qed.

Lemma find_snoc (kv : tags) (k k' v : list byte) :
  find (kv ++ [(k', v)]) k =
  match find kv k with
  | Some x => Some x
  | None => if list_eq_dec Byte.byte_eq_dec k k' then Some v else None
  end.
Proof.
  induction kv as [|[k1 v1] r IH]; simpl; [reflexivity|].
  destruct (list_eq_dec Byte.byte_eq_dec k k1); [reflexivity | exact IH].
Qed.

Lemma find_emplace (kv : tags) (k k' v : list byte) :
  find (emplace kv k' v) k =
  match find kv k with
  | Some x => Some x
  | None => if list_eq_dec Byte.byte_eq_dec k k' then Some v else None
  end.
Proof.
  unfold emplace. destruct (find kv k') as [x|] eqn:E.
  - destruct (find kv k) eqn:F; [reflexivity|].
    destruct (list_eq_dec Byte.byte_eq_dec k k'); [subst; congruence | reflexivity].
  - apply find_snoc.
Qed.

Lemma fold_parse_line_find (ls : list (list byte)) (acc : tags * bool)
    (k : list byte) :
  find (fst (fold_left parse_line ls acc)) k =
  match find (fst acc) k with
  | Some v => Some v
  | None => first_value ls k
  end.
Proof.
  revert acc. induction ls as [|l r IH]; intros acc; simpl.
  - destruct (find (fst acc) k); reflexivity.
  - rewrite IH, parse_line_map.
    destruct (line_entry l) as [[k' v]|].
    + rewrite find_emplace. destruct (find (fst acc) k); [reflexivity|].
      destruct (list_eq_dec Byte.byte_eq_dec k k'); reflexivity.
    + reflexivity.
Qed.

(** A PSF file whose tag section sets "title" twice. *)
Definition dup_psf : list byte :=
  b "PSF" ++ bytes_of_Z (1 :: repeat 0 12) ++ b "[TAG]" ++
  b "title=Foo" ++ ["010"%byte] ++ b "Title=Bar" ++ ["010"%byte].

(** C9 (counterexample): with the tag lines "title=Foo" and "Title=Bar",
    [parseTags] maps "title" to "Foo": the first occurrence is kept. *)
Lemma C9_first_occurrence_wins :
  find (fst (fst (parseTags sample_layout (fun v => v) (file_of dup_psf) 16)))
       (b "title") = Some (b "Foo").
Proof. vm_compute. reflexivity. Qed.

(** C9 (amended): the map built by the tag-parsing loop holds, for every
    key, the value of the FIRST [key=value] line with that (lowered) key:
    [emplace] leaves an existing key alone, so later duplicates are
    ignored. *)
Theorem C9_loop_keeps_first_value (ls : list (list byte)) (u : bool)
    (k : list byte) :
  find (fst (fold_left parse_line ls ([], u))) k = first_value ls k.
Proof. rewrite fold_parse_line_find. reflexivity. Qed.

(** ** C10: PSF file without tags *)

Lemma parseTags_data (L : layout) (conv : list byte -> list byte)
    (f : IRpFile) (a : Z) :
  f_data (snd (fst (parseTags L conv f a))) = f_data f.
Proof.
  unfold parseTags.
  destruct (seekAndRead f a (sizeof_TAG_MAGIC L)) as [tm f1] eqn:S.
  assert (D : f_data f1 = f_data f).
  { change f1 with (snd (tm, f1)). rewrite <- S.
    apply BRSTMProofs.seekAndRead_data. }
  destruct (negb _); [exact D|].
  destruct (_ <=? 0); [exact D|].
  destruct (read f1 _) as [td f2] eqn:R.
  assert (D2 : f_data f2 = f_data f).
  { change f2 with (snd (td, f2)). rewrite <- R. exact D. }
  destruct (negb _); [exact D2|].
  destruct (fold_left _ _ _) as [kv u]. exact D2.
Qed.

Lemma PSF_ctor_valid (L : layout) (f0 : IRpFile) :
  isValid (PSF_ctor L (Some f0)) = true ->
  fields (PSF_ctor L (Some f0)) = [] /\
  metaData (PSF_ctor L (Some f0)) = None /\
  exists f1, file (PSF_ctor L (Some f0)) = Some f1 /\ f_data f1 = f_data f0.
Proof.
  unfold PSF_ctor.
  destruct (read (rewind f0) (sizeof_PSF_Header L)) as [bs f1] eqn:R.
  destruct (negb _); [discriminate|].
  destruct (magic_ok L _); [|discriminate].
  intros _. split; [reflexivity|]. split; [reflexivity|].
  exists f1. split; [reflexivity|].
  change f1 with (snd (bs, f1)). rewrite <- R. reflexivity.
Qed.

(** C10: on a valid PSF object whose tag section yields no entries (for
    the data of its file), [loadMetaData] returns [-EIO] and leaves no
    metadata object; a second [loadMetaData] parses the tag section again
    (on the file as the first call left it) and again returns [-EIO]; and
    [loadFieldData] still succeeds with at least the System field. *)
Theorem C10_empty_tags_not_cached (L : layout) (conv : list byte -> list byte)
    (f0 : IRpFile) :
  isValid (PSF_ctor L (Some f0)) = true ->
  (forall f, f_data f = f_data f0 ->
     fst (fst (parseTags L conv f (tag_addr L (PSF_ctor L (Some f0))))) = []) ->
  let '(r1, d1) := loadMetaData L conv (PSF_ctor L (Some f0)) in
  r1 = - EIO /\ metaData d1 = None /\ isValid d1 = true /\
  (exists f1, file d1 = Some f1 /\
     loadMetaData L conv d1 =
       (- EIO, mkPriv (Some (snd (fst (parseTags L conv f1 (tag_addr L d1)))))
                 true (fields d1) None (psfHeader d1))) /\
  1 <= fst (loadFieldData L conv d1).
Proof.
  intros V HT.
  destruct (PSF_ctor_valid L f0 V) as [Fl [Md [f1 [Fi D1]]]].
  set (d := PSF_ctor L (Some f0)) in *.
  unfold loadMetaData at 1. rewrite Md, Fi, V. cbn [negb].
  destruct (parseTags L conv f1 (tag_addr L d)) as [[kv f2] n] eqn:P.
  assert (E1 : kv = []).
  { change kv with (fst (fst (kv, f2, n))). rewrite <- P. apply HT. exact D1. }
  assert (D2 : f_data f2 = f_data f0).
  { change f2 with (snd (fst (kv, f2, n))). rewrite <- P.
    rewrite parseTags_data. exact D1. }
  subst kv.
  split; [reflexivity|]. split; [reflexivity|]. split; [reflexivity|]. split.
  - exists f2. split; [reflexivity|].
    unfold loadMetaData. cbn [metaData file isValid negb fields psfHeader].
    unfold tag_addr at 1. cbn [psfHeader]. fold (tag_addr L d).
    destruct (parseTags L conv f2 (tag_addr L d)) as [[kv' f3] n'] eqn:P2.
    assert (E2 : kv' = []).
    { change kv' with (fst (fst (kv', f3, n'))). rewrite <- P2.
      apply HT. exact D2. }
    subst kv'. unfold tag_addr. cbn [psfHeader]. fold (tag_addr L d).
    rewrite P2. reflexivity.
  - unfold loadFieldData. cbn [fields file isValid negb psfHeader].
    rewrite Fl. cbn [negb].
    destruct (parseTags L conv f2 _) as [[kv' f3] n'].
    cbn [fst List.length]. lia.
Qed.

(** A PSF file made of its header alone: no tag section. *)
Definition hdr_psf : list byte := b "PSF" ++ bytes_of_Z (1 :: repeat 0 12).

Lemma C10_empty_tags_not_cached_witness :
  let '(r1, d1) := loadMetaData sample_layout (fun v => v)
                     (PSF_ctor sample_layout (Some (file_of hdr_psf))) in
  r1 = - EIO /\ metaData d1 = None /\ isValid d1 = true /\
  (exists f1, file d1 = Some f1 /\
     loadMetaData sample_layout (fun v => v) d1 =
       (- EIO, mkPriv (Some (snd (fst (parseTags sample_layout (fun v => v) f1
                                        (tag_addr sample_layout d1)))))
                 true (fields d1) None (psfHeader d1))) /\
  1 <= fst (loadFieldData sample_layout (fun v => v) d1).
Proof.
  apply (C10_empty_tags_not_cached sample_layout (fun v => v) (file_of hdr_psf)).
  - vm_compute. reflexivity.
  - intros [dt p n] Hf. cbn [f_data] in Hf. subst dt. vm_compute. reflexivity.
Defined.

End PSFProofs.

Module TextFuncsMiscProofs.
Import TextFuncsMisc.

Lemma byte_eqb_spec (x y : byte) : reflect (x = y) (Byte.eqb x y).
Proof.
  destruct (Byte.eqb x y) eqn:E; constructor.
  - apply Byte.byte_dec_bl. exact E.
  - apply Byte.eqb_false. exact E.
Qed.

Lemma byte_eqb_false_iff (x y : byte) : Byte.eqb x y = false <-> x <> y.
Proof.
  split; [apply Byte.eqb_false|].
  intros H. destruct (byte_eqb_spec x y); [contradiction | reflexivity].
Qed.

Ltac zfalse := symmetry; first [apply Z.eqb_neq | apply Z.ltb_ge | apply Z.leb_gt]; lia.

Lemma to_int_id (z : Z) : - 2 ^ 31 <= z < 2 ^ 31 -> to_int z = z.
Proof.
  intros H. unfold to_int.
  rewrite Z.mod_small by (change (2 ^ 32) with (2 * 2 ^ 31); lia). lia.
Qed.

(** *** [utf16_bswap] *)

Fixpoint swab16_check (n : nat) (z : Z) : bool :=
  match n with
  | O => true
  | S n' => (swab16 (swab16 z) =? z) && swab16_check n' (z + 1)
  end.

Lemma swab16_check_ok (n : nat) (z x : Z) :
  swab16_check n z = true -> z <= x < z + Z.of_nat n -> swab16 (swab16 x) = x.
Proof.
  revert z. induction n as [|n IH]; intros z H Hx; [lia|].
  simpl in H. apply andb_true_iff in H as [H1 H2].
  destruct (Z.eq_dec x z) as [->|Ne]; [apply Z.eqb_eq; exact H1|].
  apply (IH (z + 1)); [exact H2 | lia].
Qed.

Lemma swab16_involutive (x : Z) : 0 <= x < 2 ^ 16 -> swab16 (swab16 x) = x.
Proof.
  intros Hx. apply (swab16_check_ok (Z.to_nat 65536) 0); [vm_compute; reflexivity|].
  rewrite Z2Nat.id by lia. lia.
Qed.

Lemma bswap_loop_ok (n : nat) (str : list Z) :
  (n <= List.length str)%nat -> bswap_loop n str = Some (map swab16 (firstn n str)).
Proof.
  revert str. induction n as [|n IH]; intros str Hn; [reflexivity|].
  destruct str as [|c r]; simpl in Hn; [lia|].
  simpl. rewrite IH by lia. reflexivity.
Qed.


(** [utf16_bswap] with an explicit length over 16-bit characters: it
    swaps the first [len] characters, and swapping its result again gives
    back those characters. *)
Theorem utf16_bswap_twice (str : list Z) (n : nat) :
  Forall (fun c => 0 <= c < 2 ^ 16) str -> (n <= List.length str)%nat ->
  utf16_bswap str (Z.of_nat n) = Some (map swab16 (firstn n str)) /\
  utf16_bswap (map swab16 (firstn n str)) (Z.of_nat n) = Some (firstn n str).
Proof.
  intros Hr Hn. unfold utf16_bswap.
  destruct n as [|n]; [split; reflexivity|].
  replace (Z.of_nat (S n) =? 0) with false by zfalse.
  replace (Z.of_nat (S n) <? 0) with false by zfalse.
  rewrite Nat2Z.id. split; [apply bswap_loop_ok; exact Hn|].
  rewrite bswap_loop_ok by (rewrite length_map, length_firstn; lia).
  rewrite firstn_map, firstn_firstn, Nat.min_id, map_map. f_equal.
  transitivity (map (fun x => x) (firstn (S n) str)); [|apply map_id].
  apply map_ext_in. intros x Hx. apply swab16_involutive.
  rewrite Forall_forall in Hr. apply Hr.
  rewrite <- (firstn_skipn (S n) str). apply in_or_app. left. exact Hx.
Qed.

Lemma utf16_bswap_twice_witness :
  Forall (fun c => 0 <= c < 2 ^ 16) [258; 772; 65535] /\
  (2 <= List.length ([258; 772; 65535]%Z : list Z))%nat /\
  utf16_bswap [258; 772; 65535] 2 = Some [513; 1027] /\
  utf16_bswap [513; 1027] 2 = Some [258; 772].
Proof.
  assert (F : Forall (fun c => 0 <= c < 2 ^ 16) [258; 772; 65535])
    by (repeat constructor; lia).
  assert (L : (2 <= List.length ([258; 772; 65535]%Z : list Z))%nat)
    by (cbn [List.length]; lia).
  destruct (utf16_bswap_twice [258; 772; 65535] 2 F L) as [A B].
  split; [exact F|]. split; [exact L|]. split; [exact A | exact B].
Defined.



(** *** [u16_strnlen] *)

Lemma strnlen_loop_min (s : list Z) (n len m : nat) :
  (len <= m)%nat -> u16_strlen s = Some n ->
  strnlen_loop s len m = Some (Nat.min (len + n) m).
Proof.
  revert n len. induction s as [|c r IH]; intros n len Hl Hs; [discriminate|].
  simpl in Hs |- *. destruct (c =? 0).
  - injection Hs as <-. f_equal. lia.
  - destruct (u16_strlen r) as [n'|] eqn:E; [|discriminate].
    injection Hs as <-.
    destruct (Nat.ltb_spec len m).
    + rewrite (IH n' (S len)) by (lia || reflexivity). f_equal. lia.
    + f_equal. lia.
Qed.

(** On a terminated string [u16_strnlen] is the minimum of [u16_strlen]
    and [maxlen]. *)
Theorem u16_strnlen_min (s : list Z) (n maxlen : nat) :
  u16_strlen s = Some n -> u16_strnlen s maxlen = Some (Nat.min n maxlen).
Proof.
  intros H. unfold u16_strnlen. rewrite (strnlen_loop_min s n 0 maxlen); [reflexivity|lia|exact H].
Qed.

Lemma u16_strnlen_min_witness :
  u16_strlen [65; 66; 67; 0] = Some 3%nat /\
  u16_strnlen [65; 66; 67; 0] 2 = Some 2%nat.
Proof.
  assert (H : u16_strlen [65; 66; 67; 0] = Some 3%nat) by reflexivity.
  split; [exact H|]. exact (u16_strnlen_min _ _ 2 H).
Defined.

Lemma strnlen_loop_firstn (s : list Z) (len m : nat) :
  (len <= m)%nat -> strnlen_loop s len m = strnlen_loop (firstn (S (m - len)) s) len m.
Proof.
  revert len. induction s as [|c r IH]; intros len Hl; [reflexivity|].
  cbn [firstn strnlen_loop]. destruct (c =? 0); [reflexivity|].
  destruct (Nat.ltb_spec len m); [|reflexivity].
  rewrite (IH (S len)) by lia. do 3 f_equal. lia.
Qed.

Lemma strnlen_loop_past (s : list Z) (len m : nat) :
  (len + List.length s = m)%nat -> ~ In 0 s -> strnlen_loop s len m = None.
Proof.
  revert len. induction s as [|c r IH]; intros len Hl Hs; [reflexivity|].
  simpl in Hl |- *. destruct (Z.eqb_spec c 0) as [E|E].
  - exfalso. apply Hs. left. congruence.
  - destruct (Nat.ltb_spec len m); [|lia].
    apply IH; [lia|]. intros I; apply Hs; right; exact I.
Qed.

(** [u16_strnlen(wcs, maxlen)] reads at most the first [maxlen + 1]
    characters, and it does read the one at index [maxlen]: a buffer of
    exactly [maxlen] non-NUL characters is read past its end. *)
Theorem u16_strnlen_reads (s : list Z) (maxlen : nat) :
  u16_strnlen s maxlen = u16_strnlen (firstn (S maxlen) s) maxlen /\
  (List.length s = maxlen -> ~ In 0 s -> u16_strnlen s maxlen = None).
Proof.
  split.
  - unfold u16_strnlen. rewrite (strnlen_loop_firstn s 0 maxlen) by lia.
    now rewrite Nat.sub_0_r.
  - intros Hl Hs. apply strnlen_loop_past; [lia | exact Hs].
Qed.

(** *** [u16_strcmp] *)

(** [u16_strcmp] is antisymmetric: exchanging the strings negates the
    result. *)
Theorem u16_strcmp_antisym (a b : list Z) (x : Z) :
  u16_strcmp a b = Some x -> u16_strcmp b a = Some (- x).
Proof.
  revert b x. induction a as [|c1 r1 IH]; intros b x H; [discriminate|].
  destruct b as [|c2 r2]; [discriminate|]. simpl in H |- *.
  destruct (Z.eqb_spec c1 0), (Z.eqb_spec c1 c2), (Z.eqb_spec c2 0),
           (Z.eqb_spec c2 c1); simpl in H |- *;
    try (injection H as <-; f_equal; lia); try lia.
  apply IH. exact H.
Qed.

Lemma u16_strcmp_antisym_witness :
  u16_strcmp [65; 66; 0] [65; 67; 0] = Some (-1) /\
  u16_strcmp [65; 67; 0] [65; 66; 0] = Some 1.
Proof.
  assert (H : u16_strcmp [65; 66; 0] [65; 67; 0] = Some (-1)) by reflexivity.
  split; [exact H|]. exact (u16_strcmp_antisym _ _ _ H).
Defined.

(** For two terminated strings, [u16_strcmp] returns 0 exactly when their
    characters up to the terminator are the same. *)
Theorem u16_strcmp_zero_iff (a b : list Z) :
  u16_strlen a <> None -> u16_strlen b <> None ->
  (u16_strcmp a b = Some 0 <-> u16_cstr a = u16_cstr b).
Proof.
  revert b. induction a as [|c1 r1 IH]; intros b Ha Hb; [contradiction|].
  destruct b as [|c2 r2]; [contradiction|]. simpl in Ha, Hb |- *.
  destruct (Z.eqb_spec c1 0) as [E1|E1].
  - subst c1. simpl. destruct (Z.eqb_spec c2 0).
    + subst. split; reflexivity.
    + split; [intros H; injection H; lia | discriminate].
  - destruct (Z.eqb_spec c1 c2) as [E|E]; simpl.
    + subst c2. rewrite (proj2 (Z.eqb_neq c1 0) E1).
      assert (Ha' : u16_strlen r1 <> None)
        by (intros N; apply Ha; rewrite N; reflexivity).
      assert (Hb' : u16_strlen r2 <> None)
        by (intros N; apply Hb; rewrite (proj2 (Z.eqb_neq c1 0) E1), N; reflexivity).
      rewrite (IH r2 Ha' Hb'). split; [intros ->; reflexivity|].
      intros H; injection H; auto.
    + split; [intros H; injection H; lia|].
      destruct (c2 =? 0); [discriminate|]. intros H; injection H; lia.
Qed.

Lemma u16_strcmp_zero_iff_witness :
  u16_strlen [65; 0; 7] <> None /\ u16_strlen [65; 0] <> None /\
  (u16_strcmp [65; 0; 7] [65; 0] = Some 0 <-> u16_cstr [65; 0; 7] = u16_cstr [65; 0]).
Proof.
  assert (A : u16_strlen [65; 0; 7] <> None) by discriminate.
  assert (B : u16_strlen [65; 0] <> None) by discriminate.
  split; [exact A|]. split; [exact B|]. exact (u16_strcmp_zero_iff _ _ A B).
Defined.

(** *** [trimEnd] *)

Lemma trim_loop_app (t u : list byte) (p sz : nat) :
  (p <= List.length t)%nat -> trim_loop (t ++ u) p sz = trim_loop t p sz.
Proof.
  revert sz. induction p as [|p IH]; intros sz Hp; [reflexivity|].
  simpl. rewrite app_nth1 by lia. destruct (Byte.eqb _ _); [|reflexivity].
  apply IH. lia.
Qed.

Lemma trim_loop_le (s : list byte) (p sz : nat) : (trim_loop s p sz <= sz)%nat.
Proof.
  revert sz. induction p as [|p IH]; intros sz; simpl; [lia|].
  destruct (negb _); [lia|]. specialize (IH (pred sz)). lia.
Qed.

(** [trimEnd] removes exactly the trailing spaces: the string is the
    result followed by spaces, and the result is empty or does not end
    with a space. *)
Theorem trimEnd_spec (str : list byte) :
  (exists k, str = trimEnd str ++ repeat " "%byte k) /\
  (trimEnd str = [] \/ last (trimEnd str) Byte.x00 <> " "%byte).
Proof.
  induction str as [|c t IH] using rev_ind.
  - split; [exists O; reflexivity | left; reflexivity].
  - unfold trimEnd. rewrite length_app. simpl length.
    rewrite Nat.add_1_r. cbn [trim_loop].
    rewrite app_nth2 by lia. rewrite Nat.sub_diag. simpl nth.
    destruct (byte_eqb_spec c " "%byte) as [E|E]; simpl negb.
    + subst c. rewrite trim_loop_app by lia. cbn [Nat.pred].
      rewrite firstn_app.
      pose proof (trim_loop_le t (List.length t) (List.length t)) as Le.
      replace (trim_loop t (List.length t) (List.length t) - List.length t)%nat
        with O by lia.
      rewrite firstn_O, app_nil_r. unfold trimEnd in IH.
      destruct IH as [[k Hk] IH2]. split; [|exact IH2].
      exists (S k). rewrite Hk at 1. rewrite <- app_assoc. f_equal.
      replace (S k) with (k + 1)%nat by lia. rewrite repeat_app. reflexivity.
    + rewrite firstn_all2 by (rewrite length_app; simpl; lia).
      split; [exists O; rewrite app_nil_r; reflexivity|].
      right. rewrite last_last. exact E.
Qed.

(** *** [dos2unix] *)

Definition no_cr_nul (s : list byte) : Prop :=
  ~ In "013"%byte s /\ ~ In Byte.x00 s.

Lemma d2u_loop_plain (s p acc : list byte) (lf : Z) :
  ~ In "013"%byte s ->
  d2u_loop (List.length s) (s ++ p) acc lf = Some (p, acc ++ s, lf).
Proof.
  revert acc. induction s as [|c r IH]; intros acc Hs.
  - rewrite app_nil_r. reflexivity.
  - simpl. destruct (byte_eqb_spec c "013"%byte) as [E|E].
    + exfalso. apply Hs. left. congruence.
    + rewrite IH by (intros I; apply Hs; right; exact I).
      rewrite <- app_assoc. reflexivity.
Qed.

Lemma d2u_loop_add (a b : nat) (p acc : list byte) (lf : Z) :
  d2u_loop (a + b) p acc lf =
  match d2u_loop a p acc lf with
  | Some (p', acc', lf') => d2u_loop b p' acc' lf'
  | None => None
  end.
Proof.
  revert p acc lf. induction a as [|a IH]; intros p acc lf; [reflexivity|].
  simpl. destruct p as [|c0 r]; [reflexivity|].
  destruct (Byte.eqb c0 _); [|apply IH].
  destruct r as [|c1 r']; [reflexivity|].
  destruct (Byte.eqb c1 _); apply IH.
Qed.

Lemma strlen_app (s rest : list byte) :
  ~ In Byte.x00 s -> strlen (s ++ Byte.x00 :: rest) = Some (List.length s).
Proof.
  induction s as [|c r IH]; intros Hs; [reflexivity|].
  simpl. destruct (byte_eqb_spec c Byte.x00) as [E|E].
  - exfalso. apply Hs. left. congruence.
  - rewrite IH by (intros I; apply Hs; right; exact I). reflexivity.
Qed.

Lemma dos2unix_nonneg (str : list byte) (len : Z) :
  0 <= len ->
  dos2unix str len =
    match d2u_loop (Z.to_nat (len - 1)) str [] 0 with
    | None => None
    | Some (p, acc, lf) =>
      match p with
      | [] => None
      | c :: _ =>
        if Byte.eqb c "013"%byte then Some (acc ++ ["010"%byte], lf + 1)
        else Some (acc ++ [c], lf)
      end
    end.
Proof.
  intros H. unfold dos2unix. replace (len <? 0) with false by zfalse.
  cbv iota. replace (len <? 0) with false by zfalse. reflexivity.
Qed.

Lemma dos2unix_strlen (s rest : list byte) :
  ~ In Byte.x00 s -> Z.of_nat (List.length s) < 2 ^ 31 ->
  dos2unix (s ++ Byte.x00 :: rest) (-1) =
    dos2unix (s ++ Byte.x00 :: rest) (Z.of_nat (List.length s)).
Proof.
  intros Hs Hl. unfold dos2unix at 1. cbn [Z.ltb Z.compare].
  rewrite strlen_app by exact Hs. cbn [option_map].
  rewrite to_int_id by lia.
  rewrite (dos2unix_nonneg _ (Z.of_nat (List.length s))) by lia.
  replace (Z.of_nat (List.length s) <? 0) with false by zfalse.
  reflexivity.
Qed.

(** [dos2unix] leaves a non-empty string without CR unchanged and counts no
    line ending, whether the length is given or the string is
    NUL-terminated ([len = -1]); a CR at the very end becomes LF and is
    counted. For [len = -1] the string is shorter than [2^31 - 1] bytes,
    so that [len = strlen(str_dos)] keeps its length as an [int]. *)
Theorem dos2unix_plain (s rest : list byte) :
  s <> [] -> no_cr_nul s -> Z.of_nat (List.length s) < 2 ^ 31 - 1 ->
  dos2unix (s ++ rest) (Z.of_nat (List.length s)) = Some (s, 0) /\
  dos2unix (s ++ Byte.x00 :: rest) (-1) = Some (s, 0) /\
  dos2unix (s ++ "013"%byte :: Byte.x00 :: rest) (-1) =
    Some (s ++ ["010"%byte], 1).
Proof.
  intros Hne [Hcr Hnul] Hl.
  destruct (exists_last Hne) as [s' [c Hs]]. subst s.
  assert (Hc : c <> "013"%byte) by (intros ->; apply Hcr, in_elt).
  assert (Hcr' : ~ In "013"%byte s')
    by (intros I; apply Hcr, in_or_app; left; exact I).
  assert (Len : Z.to_nat (Z.of_nat (List.length (s' ++ [c])) - 1) = List.length s')
    by (rewrite length_app; simpl; lia).
  assert (Fin : forall q, d2u_loop (List.length s') ((s' ++ [c]) ++ q) [] 0 =
                          Some (c :: q, s', 0)).
  { intros q. rewrite <- app_assoc. simpl app.
    rewrite (d2u_loop_plain s' (c :: q) [] 0 Hcr'). reflexivity. }
  assert (Bc : Byte.eqb c "013"%byte = false)
    by (apply byte_eqb_false_iff; exact Hc).
  split; [|split].
  - rewrite dos2unix_nonneg by lia.
    rewrite Len, Fin, Bc. reflexivity.
  - rewrite dos2unix_strlen by (exact Hnul || lia).
    rewrite dos2unix_nonneg by lia.
    rewrite Len, Fin, Bc. reflexivity.
  - replace ((s' ++ [c]) ++ "013"%byte :: Byte.x00 :: rest)
      with ((s' ++ [c] ++ ["013"%byte]) ++ Byte.x00 :: rest)
      by (rewrite <- !app_assoc; reflexivity).
    rewrite dos2unix_strlen
      by (first [rewrite !length_app; cbn [List.length]; lia |
          intros I; apply in_app_or in I as [I|I];
          [apply Hnul, in_or_app; left; exact I|
           simpl in I; destruct I as [I|[I|I]];
           [apply Hnul; rewrite <- I; apply in_elt | discriminate | contradiction]]]).
    rewrite dos2unix_nonneg by lia.
    replace (Z.to_nat (Z.of_nat (List.length (s' ++ [c] ++ ["013"%byte])) - 1))
      with (List.length s' + 1)%nat by (rewrite !length_app; simpl; lia).
    rewrite d2u_loop_add. rewrite <- !app_assoc. simpl app.
    rewrite (d2u_loop_plain s' _ [] 0 Hcr'). simpl.
    rewrite Bc. simpl. rewrite <- app_assoc. reflexivity.
Qed.

Lemma dos2unix_plain_witness :
  ["a"; "b"]%byte <> [] /\ no_cr_nul ["a"; "b"]%byte /\
  Z.of_nat (List.length ["a"; "b"]%byte) < 2 ^ 31 - 1 /\
  dos2unix (["a"; "b"] ++ ["c"])%byte 2 = Some (["a"; "b"]%byte, 0) /\
  dos2unix (["a"; "b"] ++ [Byte.x00])%byte (-1) = Some (["a"; "b"]%byte, 0) /\
  dos2unix (["a"; "b"] ++ ["013"; Byte.x00])%byte (-1) =
    Some ((["a"; "b"] ++ ["010"])%byte, 1).
Proof.
  assert (A : ["a"; "b"]%byte <> []) by discriminate.
  assert (B : no_cr_nul ["a"; "b"]%byte)
    by (split; simpl; intros [H|[H|H]]; discriminate || contradiction).
  assert (Lb : Z.of_nat (List.length ["a"; "b"]%byte) < 2 ^ 31 - 1)
    by (vm_compute; reflexivity).
  destruct (dos2unix_plain ["a"; "b"]%byte [] A B Lb) as [_ [_ C]].
  destruct (dos2unix_plain ["a"; "b"]%byte ["c"%byte] A B Lb) as [D _].
  destruct (dos2unix_plain ["a"; "b"]%byte [] A B Lb) as [_ [E _]].
  split; [exact A|]. split; [exact B|]. split; [exact Lb|].
  split; [exact D|]. split; [exact E|].
  exact C.
Defined.

(** [dos2unix] always emits the first byte of the buffer: with [len = 0]
    its result is that byte (a CR turned into LF), and the empty
    NUL-terminated string gives a one-character string holding NUL. *)
Theorem dos2unix_reads_first_byte (c : byte) (rest : list byte) :
  dos2unix (c :: rest) 0 =
    Some (if Byte.eqb c "013"%byte then (["010"%byte], 1) else ([c], 0)) /\
  dos2unix (Byte.x00 :: rest) (-1) = Some ([Byte.x00], 0).
Proof.
  split; [|reflexivity].
  unfold dos2unix. simpl. destruct (Byte.eqb c _); reflexivity.
Qed.

(** [dos2unix] on a NUL-terminated string with one CRLF: the CRLF becomes
    LF and is counted, but the loop advances two bytes per CRLF while its
    count drops by one, so the output also ends with the NUL terminator.
    The string is shorter than [2^31] bytes, so that [strlen] keeps its
    length as an [int]. *)
Theorem dos2unix_crlf_keeps_nul (t u rest : list byte) :
  no_cr_nul t -> no_cr_nul u ->
  Z.of_nat (List.length t + List.length u) + 2 < 2 ^ 31 ->
  dos2unix (t ++ "013"%byte :: "010"%byte :: u ++ Byte.x00 :: rest) (-1) =
    Some (t ++ "010"%byte :: u ++ [Byte.x00], 1).
Proof.
  intros [Ht Htn] [Hu Hun] Hl.
  replace (t ++ "013"%byte :: "010"%byte :: u ++ Byte.x00 :: rest)
    with ((t ++ "013"%byte :: "010"%byte :: u) ++ Byte.x00 :: rest)
    by (rewrite <- app_assoc; reflexivity).
  rewrite dos2unix_strlen
    by (first [rewrite length_app; cbn [List.length]; lia |
        intros I; apply in_app_or in I as [I|I]; [exact (Htn I)|];
        simpl in I; destruct I as [I|[I|I]]; [discriminate|discriminate|exact (Hun I)]]).
  rewrite dos2unix_nonneg by lia.
  replace (Z.to_nat (Z.of_nat (List.length (t ++ "013"%byte :: "010"%byte :: u)) - 1))
    with (List.length t + (1 + List.length u))%nat
    by (rewrite length_app; simpl; lia).
  rewrite d2u_loop_add. rewrite <- app_assoc. simpl app.
  rewrite (d2u_loop_plain t _ [] 0 Ht). simpl app.
  rewrite d2u_loop_add. simpl.
  rewrite (d2u_loop_plain u _ _ _ Hu). simpl.
  rewrite <- !app_assoc. reflexivity.
Qed.

Lemma dos2unix_crlf_keeps_nul_witness :
  no_cr_nul ["a"]%byte /\ no_cr_nul ["b"]%byte /\
  Z.of_nat (List.length ["a"]%byte + List.length ["b"]%byte) + 2 < 2 ^ 31 /\
  dos2unix (["a"] ++ "013" :: "010" :: ["b"] ++ Byte.x00 :: [])%byte (-1) =
    Some ((["a"] ++ "010" :: ["b"] ++ [Byte.x00])%byte, 1).
Proof.
  assert (A : no_cr_nul ["a"]%byte)
    by (split; simpl; intros [H|H]; discriminate || contradiction).
  assert (B : no_cr_nul ["b"]%byte)
    by (split; simpl; intros [H|H]; discriminate || contradiction).
  assert (C : Z.of_nat (List.length ["a"]%byte + List.length ["b"]%byte) + 2 < 2 ^ 31)
    by (vm_compute; reflexivity).
  split; [exact A|]. split; [exact B|]. split; [exact C|].
  exact (dos2unix_crlf_keeps_nul _ _ [] A B C).
Defined.

(** *** [formatFileSize] *)

Lemma shiftr_split (n k r : Z) :
  0 <= n -> 0 <= r < 2 ^ n -> Z.shiftr (k * 2 ^ n + r) n = k.
Proof.
  intros Hn Hr. rewrite Z.shiftr_div_pow2 by exact Hn.
  symmetry. apply Z.div_unique with r; [left; exact Hr | ring].
Qed.

Lemma land_split (n k r : Z) :
  0 <= n -> 0 <= r < 2 ^ n -> Z.land (k * 2 ^ n + r) (Z.shiftl 1 n - 1) = r.
Proof.
  intros Hn Hr. rewrite Z.shiftl_1_l.
  replace (2 ^ n - 1) with (Z.ones n) by (rewrite Z.ones_equiv; lia).
  rewrite Z.land_ones by exact Hn.
  rewrite Z.add_comm, Z.mod_add by (apply Z.pow_nonzero; lia).
  apply Z.mod_small. exact Hr.
Qed.

Lemma calc_frac_part_split (n k r : Z) :
  0 <= n -> 0 <= r < 2 ^ n ->
  calc_frac_part (k * 2 ^ n + r) (Z.shiftl 1 n) = calc_frac_part r (2 ^ n).
Proof.
  intros Hn Hr. unfold calc_frac_part. rewrite land_split by assumption.
  pose proof (land_split n 0 r Hn Hr) as L0.
  rewrite Z.mul_0_l, Z.add_0_l, Z.shiftl_1_l in L0.
  rewrite Z.shiftl_1_l, L0. reflexivity.
Qed.

Ltac pow_consts :=
  repeat match goal with
  | |- context[(2 ^ ?e)%Z] =>
      let v := eval vm_compute in (2 ^ e)%Z in
      lazymatch v with Zpos _ => change (2 ^ e)%Z with v in * end
  | H : context[(2 ^ ?e)%Z] |- _ =>
      let v := eval vm_compute in (2 ^ e)%Z in
      lazymatch v with Zpos _ => change (2 ^ e)%Z with v in * end
  | |- context[Z.shiftl ?a ?e] =>
      let v := eval vm_compute in (Z.shiftl a e) in
      lazymatch v with Zpos _ => change (Z.shiftl a e) with v in * end
  end.

Ltac decide_ltb :=
  repeat match goal with
  | |- context[?a <? ?b] =>
      first [ replace (a <? b) with true by (symmetry; apply Z.ltb_lt; lia)
            | replace (a <? b) with false by (symmetry; apply Z.ltb_ge; lia) ]
  | |- context[?a <=? ?b] =>
      first [ replace (a <=? b) with true by (symmetry; apply Z.leb_le; lia)
            | replace (a <=? b) with false by (symmetry; apply Z.leb_gt; lia) ]
  end.

Lemma formatFileSize_scaled_aux (j : nat) (k r : Z) :
  (1 <= j <= 6)%nat -> 2 <= k < 2048 -> 0 <= r < 2 ^ (10 * Z.of_nat j) ->
  k * 2 ^ (10 * Z.of_nat j) + r < 2 ^ 63 ->
  formatFileSize (k * 2 ^ (10 * Z.of_nat j) + r) =
  ((fmt_u k ++ "." ++ frac_text k (calc_frac_part r (2 ^ (10 * Z.of_nat j))))
   ++ " " ++ unit_name j)%string.
Proof.
  intros Hj Hk Hr Hmax.
  assert (Sh := shiftr_split (10 * Z.of_nat j) k r ltac:(lia) Hr).
  assert (Cf := calc_frac_part_split (10 * Z.of_nat j) k r ltac:(lia) Hr).
  assert (Ti : to_int k = k) by (apply to_int_id; pow_consts; lia).
  unfold formatFileSize.
  destruct j as [|[|[|[|[|[|[|j]]]]]]]; try lia;
    match goal with |- context[10 * Z.of_nat ?j] =>
      let v := eval vm_compute in (10 * Z.of_nat j) in
      change (10 * Z.of_nat j) with v in * end;
    rewrite Sh, Cf, Ti;
    unfold frac_text, fmt_int;
    pow_consts; decide_ltb; cbv beta iota zeta; decide_ltb;
    destruct (10 <=? k); reflexivity.
Qed.

(** For a size [k * 2^(10 j) + r] with [2 <= k < 2048] and [r < 2^(10 j)],
    [formatFileSize] picks the [j]-th unit (KiB for [j = 1] up to EiB for
    [j = 6]), prints [k] as the whole part and the digits of
    [calc_frac_part r (2^(10 j))] after the point: two when [k < 10]
    (the value as is), one when [k >= 10] (the value divided by 10,
    plus one when its last digit is above 5). *)
Theorem formatFileSize_scaled (j : nat) (k r : Z) :
  (1 <= j <= 6)%nat -> 2 <= k < 2048 -> 0 <= r < 2 ^ (10 * Z.of_nat j) ->
  k * 2 ^ (10 * Z.of_nat j) + r < 2 ^ 63 ->
  formatFileSize (k * 2 ^ (10 * Z.of_nat j) + r) =
  ((fmt_u k ++ "." ++ frac_text k (calc_frac_part r (2 ^ (10 * Z.of_nat j))))
   ++ " " ++ unit_name j)%string.
Proof. intros Hj Hk Hr Hmax. exact (formatFileSize_scaled_aux j k r Hj Hk Hr Hmax). Qed.


Lemma calc_frac_part_units (j : nat) :
  (1 <= j <= 6)%nat ->
  calc_frac_part 0 (2 ^ (10 * Z.of_nat j)) = 0 /\
  calc_frac_part (2 ^ (10 * Z.of_nat j) - 1) (2 ^ (10 * Z.of_nat j)) = 100.
Proof.
  intros Hj. destruct j as [|[|[|[|[|[|[|j]]]]]]]; try lia;
    split; vm_compute; reflexivity.
Qed.

(** Sizes below [2048] (the test is [size < (2LL << 10)]) are printed in
    bytes, with the singular "byte" for 1 and no decimals. *)
Theorem formatFileSize_bytes (size : Z) :
  0 <= size < 2048 ->
  formatFileSize size =
    (fmt_u size ++ " " ++ (if (size =? 1)%Z then "byte" else "bytes"))%string.
Proof.
  intros H. unfold formatFileSize.
  rewrite (to_int_id size) by (pow_consts; lia).
  unfold fmt_int. pow_consts. decide_ltb. cbv beta iota zeta. decide_ltb.
  reflexivity.
Qed.

Lemma formatFileSize_bytes_witness :
  0 <= 1 < 2048 /\ formatFileSize 1 = "1 byte"%string.
Proof. split; [lia | exact (formatFileSize_bytes 1 ltac:(lia))]. Defined.

(** A negative size that fits in an [int] is printed as that integer,
    with no unit and no decimals. *)
Theorem formatFileSize_negative (size : Z) :
  - 2 ^ 31 <= size < 0 ->
  formatFileSize size = ("-" ++ fmt_u (- size))%string.
Proof.
  intros H. unfold formatFileSize.
  rewrite (to_int_id size) by lia.
  unfold fmt_int. pow_consts. decide_ltb. cbv beta iota zeta. decide_ltb.
  reflexivity.
Qed.

Lemma formatFileSize_negative_witness :
  - 2 ^ 31 <= -5 < 0 /\ formatFileSize (-5) = "-5"%string.
Proof.
  split; [change (2 ^ 31) with 2147483648; lia|].
  apply formatFileSize_negative. change (2 ^ 31) with 2147483648; lia.
Defined.

Lemma formatFileSize_scaled_witness :
  (1 <= 1 <= 6)%nat /\ 2 <= 3 < 2048 /\ 0 <= 512 < 2 ^ (10 * Z.of_nat 1) /\
  3 * 2 ^ (10 * Z.of_nat 1) + 512 < 2 ^ 63 /\
  formatFileSize (3 * 2 ^ (10 * Z.of_nat 1) + 512) =
  ((fmt_u 3 ++ "." ++ frac_text 3 (calc_frac_part 512 (2 ^ (10 * Z.of_nat 1))))
   ++ " " ++ unit_name 1)%string.
Proof.
  assert (A : (1 <= 1 <= 6)%nat) by lia.
  assert (B : 2 <= 3 < 2048) by lia.
  assert (C : 0 <= 512 < 2 ^ (10 * Z.of_nat 1))
    by (change (2 ^ (10 * Z.of_nat 1)) with 1024; lia).
  assert (D : 3 * 2 ^ (10 * Z.of_nat 1) + 512 < 2 ^ 63)
    by (change (2 ^ (10 * Z.of_nat 1)) with 1024;
        change (2 ^ 63) with 9223372036854775808; lia).
  split; [exact A|]. split; [exact B|]. split; [exact C|]. split; [exact D|].
  exact (formatFileSize_scaled 1 3 512 A B C D).
Defined.

(** An exact multiple [k * 2^(10 j)] of a unit is printed as [k], the
    point and zeros: "k.00" for [k < 10], "k.0" for [k >= 10]. *)
Theorem formatFileSize_exact_multiple (j : nat) (k : Z) :
  (1 <= j <= 6)%nat -> 2 <= k < 2048 -> k * 2 ^ (10 * Z.of_nat j) < 2 ^ 63 ->
  formatFileSize (k * 2 ^ (10 * Z.of_nat j)) =
  ((fmt_u k ++ (if (10 <=? k)%Z then ".0" else ".00")) ++ " " ++ unit_name j)%string.
Proof.
  intros Hj Hk Hmax.
  assert (P : 0 < 2 ^ (10 * Z.of_nat j)) by (apply Z.pow_pos_nonneg; lia).
  pose proof (formatFileSize_scaled_aux j k 0 Hj Hk ltac:(lia) ltac:(lia)) as F.
  rewrite Z.add_0_r in F. rewrite F.
  rewrite (proj1 (calc_frac_part_units j Hj)).
  unfold frac_text. destruct (10 <=? k); reflexivity.
Qed.

(** One byte short of [k + 1] units, [calc_frac_part] rounds the
    fraction up to 100, which is not carried into the whole part:
    the result reads "k.100" for [k < 10] and "k.10" for [k >= 10]. *)
Theorem formatFileSize_frac_overflow (j : nat) (k : Z) :
  (1 <= j <= 6)%nat -> 2 <= k < 2048 ->
  (k + 1) * 2 ^ (10 * Z.of_nat j) <= 2 ^ 63 ->
  formatFileSize (k * 2 ^ (10 * Z.of_nat j) + (2 ^ (10 * Z.of_nat j) - 1)) =
  ((fmt_u k ++ (if (10 <=? k)%Z then ".10" else ".100")) ++ " " ++ unit_name j)%string.
Proof.
  intros Hj Hk Hmax.
  assert (P : 0 < 2 ^ (10 * Z.of_nat j)) by (apply Z.pow_pos_nonneg; lia).
  rewrite (formatFileSize_scaled_aux j k (2 ^ (10 * Z.of_nat j) - 1) Hj Hk
            ltac:(lia) ltac:(nia)).
  rewrite (proj2 (calc_frac_part_units j Hj)).
  unfold frac_text. destruct (10 <=? k); reflexivity.
Qed.

Lemma formatFileSize_exact_multiple_witness :
  (1 <= 1 <= 6)%nat /\ 2 <= 3 < 2048 /\ 3 * 2 ^ (10 * Z.of_nat 1) < 2 ^ 63 /\
  formatFileSize (3 * 2 ^ (10 * Z.of_nat 1)) = "3.00 KiB"%string.
Proof.
  assert (A : (1 <= 1 <= 6)%nat) by lia.
  assert (B : 2 <= 3 < 2048) by lia.
  assert (C : 3 * 2 ^ (10 * Z.of_nat 1) < 2 ^ 63)
    by (change (2 ^ (10 * Z.of_nat 1)) with 1024;
        change (2 ^ 63) with 9223372036854775808; lia).
  split; [exact A|]. split; [exact B|]. split; [exact C|].
  exact (formatFileSize_exact_multiple 1 3 A B C).
Defined.

Lemma formatFileSize_frac_overflow_witness :
  (1 <= 2 <= 6)%nat /\ 2 <= 10 < 2048 /\
  (10 + 1) * 2 ^ (10 * Z.of_nat 2) <= 2 ^ 63 /\
  formatFileSize (10 * 2 ^ (10 * Z.of_nat 2) + (2 ^ (10 * Z.of_nat 2) - 1)) =
    "10.10 MiB"%string.
Proof.
  assert (A : (1 <= 2 <= 6)%nat) by lia.
  assert (B : 2 <= 10 < 2048) by lia.
  assert (C : (10 + 1) * 2 ^ (10 * Z.of_nat 2) <= 2 ^ 63)
    by (change (2 ^ (10 * Z.of_nat 2)) with 1048576;
        change (2 ^ 63) with 9223372036854775808; lia).
  split; [exact A|]. split; [exact B|]. split; [exact C|].
  exact (formatFileSize_frac_overflow 2 10 A B C).
Defined.

End TextFuncsMiscProofs.

Module TextFuncsTimeProofs.
Import TextFuncs.

(** A whole number of seconds [k] ([sample = k * rate]) is shown as
    minutes, two-digit seconds and ".00". *)
Theorem formatSampleAsTime_whole_seconds (k rate : Z) :
  0 < rate -> 0 <= k ->
  formatSampleAsTime (k * rate) rate =
    (fmt_u (k / 60) ++ ":" ++ fmt_02u (k mod 60) ++ ".00")%string.
Proof.
  intros Hr Hk. unfold formatSampleAsTime.
  replace (rate =? 0) with false by (symmetry; apply Z.eqb_neq; lia).
  rewrite Z_mod_mult, Z.div_mul by lia. reflexivity.
Qed.

Lemma formatSampleAsTime_whole_seconds_witness :
  0 < 44100 /\ 0 <= 83 /\
  formatSampleAsTime (83 * 44100) 44100 = "1:23.00"%string.
Proof.
  split; [lia|]. split; [lia|].
  exact (formatSampleAsTime_whole_seconds 83 44100 ltac:(lia) ltac:(lia)).
Defined.

(** [convSampleToMs] of a whole number of seconds [k] is [k * 1000]
    (modulo [2^32]). *)
Theorem convSampleToMs_whole_seconds (k rate : Z) :
  rate <> 0 -> convSampleToMs (k * rate) rate = Some (u32 (k * 1000)).
Proof.
  intros Hr. unfold convSampleToMs, c_mod, c_div.
  replace (rate =? 0) with false by (symmetry; apply Z.eqb_neq; exact Hr).
  rewrite Z_mod_mult, Z.div_mul by exact Hr. cbn [Z.eqb negb].
  rewrite Z.add_0_r. reflexivity.
Qed.

Lemma convSampleToMs_whole_seconds_witness :
  44100 <> 0 /\ convSampleToMs (60 * 44100) 44100 = Some 60000.
Proof.
  split; [discriminate|].
  exact (convSampleToMs_whole_seconds 60 44100 ltac:(discriminate)).
Defined.

End TextFuncsTimeProofs.

Module PSFScanProofs.
Import CLib PSF.

Definition dval (ds : list byte) : Z :=
  fold_left (fun acc c => acc * 10 + (bval c - 48)) ds 0.

Definition digits (ds : list byte) : Prop :=
  ds <> [] /\ forallb is_digit ds = true.

Definition stops (rest : list byte) : Prop :=
  match rest with [] => True | c :: _ => is_digit c = false end.

Definition frac_adj_of (n : nat) : Z :=
  match n with O => 0 | 1%nat => 100 | 2%nat => 10 | _ => 1 end.

Lemma scan_digits_app (w : nat) (ds rest : list byte) (acc : Z) (nd : nat) :
  forallb is_digit ds = true -> stops rest -> (List.length ds <= w)%nat ->
  scan_digits w (ds ++ rest) acc nd =
    (fold_left (fun acc c => acc * 10 + (bval c - 48)) ds acc,
     (nd + List.length ds)%nat, rest).
Proof.
  revert w acc nd. induction ds as [|c ds IH]; intros w acc nd Hd Hs Hw.
  - simpl. rewrite Nat.add_0_r.
    destruct w as [|w]; [reflexivity|]. destruct rest as [|x r]; [reflexivity|].
    simpl in Hs. simpl. rewrite Hs. reflexivity.
  - simpl in Hd. apply andb_prop in Hd as [Hc Hd].
    destruct w as [|w]; [simpl in Hw; lia|].
    simpl. rewrite Hc. rewrite IH by (simpl in Hw; lia || assumption).
    replace (nd + S (List.length ds))%nat with (S nd + List.length ds)%nat by lia.
    reflexivity.
Qed.

Lemma dval_nonneg_acc (ds : list byte) (acc : Z) :
  0 <= acc -> forallb is_digit ds = true ->
  0 <= fold_left (fun acc c => acc * 10 + (bval c - 48)) ds acc.
Proof.
  revert acc. induction ds as [|c ds IH]; intros acc Ha Hd; [exact Ha|].
  simpl in Hd. apply andb_prop in Hd as [Hc Hd]. simpl. apply IH; [|exact Hd].
  unfold is_digit in Hc. apply andb_prop in Hc as [H1 _].
  apply Z.leb_le in H1. lia.
Qed.

Lemma is_digit_not_sign (c : byte) :
  is_digit c = true -> Byte.eqb c "-"%byte = false /\ Byte.eqb c "+"%byte = false.
Proof. destruct c; (discriminate || (intros _; split; reflexivity)). Qed.

Lemma is_digit_not_space (c : byte) : is_digit c = true -> is_space c = false.
Proof. destruct c; (discriminate || (intros _; reflexivity)). Qed.

Lemma scan_du (ds rest : list byte) (f : list directive) (n : Z) (vals : list Z) :
  digits ds -> stops rest -> dval ds < 2 ^ 32 ->
  scan (Du :: f) (ds ++ rest) n vals = scan f rest (n + 1) (vals ++ [dval ds]).
Proof.
  intros [Hne Hd] Hs Hv.
  destruct ds as [|c ds']; [contradiction|].
  pose proof Hd as Hd'. simpl in Hd'. apply andb_prop in Hd' as [Hc _].
  destruct (is_digit_not_sign c Hc) as [Hm Hp].
  cbn [scan app]. cbn [skip_space]. rewrite (is_digit_not_space c Hc).
  unfold scan_number. rewrite Hm, Hp.
  change (c :: ds' ++ rest) with ((c :: ds') ++ rest).
  rewrite scan_digits_app by (assumption || (rewrite length_app; lia)).
  cbn [Nat.eqb Nat.add List.length].
  assert (N0 := dval_nonneg_acc (c :: ds') 0 ltac:(lia) Hd).
  unfold store_u.
  replace (2 ^ 64 - 1 <? _) with false
    by (symmetry; apply Z.ltb_ge; change (2 ^ 64) with (2 ^ 32 * 2 ^ 32);
        fold (dval (c :: ds')); lia).
  unfold u32. rewrite Z.mod_small by (fold (dval (c :: ds')) in *; lia).
  reflexivity.
Qed.

Lemma scan_du_end (ds : list byte) (f : list directive) (n : Z) (vals : list Z) :
  digits ds -> dval ds < 2 ^ 32 ->
  scan (Du :: f) ds n vals = scan f [] (n + 1) (vals ++ [dval ds]).
Proof.
  intros Hd Hv. rewrite <- (app_nil_r ds) at 1. apply scan_du; auto. exact I.
Qed.

Lemma scan_lit (c : byte) (f : list directive) (inp : list byte) (n : Z) (vals : list Z) :
  scan (Dlit c :: f) (c :: inp) n vals = scan f inp n vals.
Proof. simpl. rewrite (Byte.byte_dec_lb (eq_refl c)). reflexivity. Qed.

Lemma scan_lit_ne (c x : byte) (f : list directive) (inp : list byte) (n : Z) (vals : list Z) :
  x <> c -> scan (Dlit c :: f) (x :: inp) n vals = (n, vals).
Proof.
  intros H. simpl. destruct (Byte.eqb x c) eqn:E; [|reflexivity].
  apply Byte.byte_dec_bl in E. contradiction.
Qed.

Lemma c_str_no_nul (l : list byte) : ~ In Byte.x00 l -> c_str l = l.
Proof.
  induction l as [|c r IH]; intros H; [reflexivity|]. simpl.
  destruct (Byte.eqb c Byte.x00) eqn:E.
  - apply Byte.byte_dec_bl in E. subst. exfalso. apply H. left. reflexivity.
  - rewrite IH; [reflexivity|]. intros I. apply H. right. exact I.
Qed.

Lemma strchr_after_none (l : list byte) (c : byte) : ~ In c l -> strchr_after l c = None.
Proof.
  induction l as [|x r IH]; intros H; [reflexivity|]. simpl.
  destruct (Byte.eqb x c) eqn:E.
  - apply Byte.byte_dec_bl in E. subst. exfalso. apply H. left. reflexivity.
  - apply IH. intros I. apply H. right. exact I.
Qed.


Lemma digits_not_in (ds : list byte) (c : byte) :
  forallb is_digit ds = true -> is_digit c = false -> ~ In c ds.
Proof.
  induction ds as [|x r IH]; intros Hd Hc I; [exact I|].
  simpl in Hd. apply andb_prop in Hd as [Hx Hd].
  destruct I as [E|I]; [subst; congruence | exact (IH Hd Hc I)].
Qed.

Lemma not_in_app_cons (c x : byte) (l1 l2 : list byte) :
  ~ In c l1 -> x <> c -> ~ In c l2 -> ~ In c (l1 ++ x :: l2).
Proof.
  intros H1 Hx H2 I. apply in_app_or in I as [I|[I|I]]; auto.
Qed.

Lemma strchr_after_skip (l1 l2 : list byte) (x c : byte) :
  ~ In c l1 -> x <> c -> strchr_after (l1 ++ x :: l2) c = strchr_after l2 c.
Proof.
  induction l1 as [|y r IH]; intros H Hx; simpl.
  - destruct (Byte.eqb x c) eqn:E; [apply Byte.byte_dec_bl in E; contradiction|].
    reflexivity.
  - destruct (Byte.eqb y c) eqn:E.
    + apply Byte.byte_dec_bl in E. subst. exfalso. apply H. left. reflexivity.
    + apply IH; [intros I; apply H; right; exact I | exact Hx].
Qed.

Lemma strchr_after_hit (l1 l2 : list byte) (c : byte) :
  ~ In c l1 -> strchr_after (l1 ++ c :: l2) c = Some l2.
Proof.
  induction l1 as [|y r IH]; intros H; simpl.
  - rewrite (Byte.byte_dec_lb (eq_refl c)). reflexivity.
  - destruct (Byte.eqb y c) eqn:E.
    + apply Byte.byte_dec_bl in E. subst. exfalso. apply H. left. reflexivity.
    + apply IH. intros I. apply H. right. exact I.
Qed.

Lemma count_digits_all (ds : list byte) :
  forallb is_digit ds = true -> count_digits ds = List.length ds.
Proof.
  induction ds as [|c r IH]; intros H; [reflexivity|].
  simpl in H. apply andb_prop in H as [Hc H]. simpl. rewrite Hc, IH by exact H.
  reflexivity.
Qed.

Lemma scan_du_fail (c : byte) (r : list byte) (f : list directive) (n : Z) (vals : list Z) :
  is_digit c = false -> is_space c = false -> c <> "+"%byte -> c <> "-"%byte ->
  scan (Du :: f) (c :: r) n vals = (n, vals).
Proof.
  intros Hd Hs Hp Hm. cbn [scan]. cbn [skip_space]. rewrite Hs.
  unfold scan_number.
  destruct (Byte.eqb c "-"%byte) eqn:E1; [apply Byte.byte_dec_bl in E1; contradiction|].
  destruct (Byte.eqb c "+"%byte) eqn:E2; [apply Byte.byte_dec_bl in E2; contradiction|].
  destruct (List.length (c :: r)) as [|w]; [reflexivity|].
  cbn [scan_digits]. rewrite Hd. reflexivity.
Qed.

Lemma c_str_idem (l : list byte) : c_str (c_str l) = c_str l.
Proof.
  induction l as [|c r IH]; [reflexivity|]. simpl.
  destruct (Byte.eqb c Byte.x00) eqn:E; [reflexivity|]. simpl. rewrite E, IH.
  reflexivity.
Qed.

Ltac digits_ok := split; [discriminate | reflexivity].

Ltac not_in :=
  repeat match goal with
  | |- ~ In _ (_ ++ _ :: _) => apply not_in_app_cons; [| discriminate |]
  | H : digits ?l |- ~ In _ ?l => apply digits_not_in; [apply (proj2 H) | reflexivity]
  end.

Ltac scan_eval :=
  repeat first
  [ rewrite scan_du by (assumption || exact I || reflexivity)
  | rewrite scan_lit
  | rewrite scan_lit_ne by discriminate
  | rewrite scan_du_end by assumption ].

Ltac lengthToMs_prep :=
  unfold lengthToMs, scanf_to, sscanf;
  repeat match goal with
  | |- context[c_str ?l] =>
      lazymatch l with
      | c_str _ => fail
      | _ => rewrite (c_str_no_nul l) by not_in
      end
  end;
  repeat first
    [ rewrite strchr_after_skip by (discriminate || not_in)
    | rewrite strchr_after_hit by not_in
    | rewrite (strchr_after_none _ "."%byte) by not_in
    | rewrite (strchr_after_none _ ","%byte) by not_in ];
  repeat match goal with
  | H : digits ?l |- context[count_digits ?l] =>
      rewrite (count_digits_all l (proj2 H))
  end;
  unfold fmt_hms_dot, fmt_hms_comma, fmt_hms, fmt_ms_dot, fmt_ms_comma,
    fmt_ms, fmt_s_dot, fmt_s_comma, fmt_s;
  scan_eval.

(** "minutes:seconds" (decimal numbers below [2^32]) is converted to
    [(min * 60 + sec) * 1000] milliseconds, computed modulo [2^32] as the
    [unsigned int] arithmetic of the code. *)
Theorem lengthToMs_min_sec (M S : list byte) :
  digits M -> digits S -> dval M < 2 ^ 32 -> dval S < 2 ^ 32 ->
  lengthToMs (M ++ ":"%byte :: S) = u32 (dval M * 60 * 1000 + dval S * 1000).
Proof. intros. lengthToMs_prep. reflexivity. Qed.


(** "hours:minutes:seconds" is converted to
    [((hour * 60 + min) * 60 + sec) * 1000] milliseconds, modulo [2^32]. *)
Theorem lengthToMs_hms (H M S : list byte) :
  digits H -> digits M -> digits S ->
  dval H < 2 ^ 32 -> dval M < 2 ^ 32 -> dval S < 2 ^ 32 ->
  lengthToMs (H ++ ":"%byte :: M ++ ":"%byte :: S) =
    u32 (dval H * 60 * 60 * 1000 + dval M * 60 * 1000 + dval S * 1000).
Proof. intros. lengthToMs_prep. reflexivity. Qed.

(** A bare number of seconds is returned as is: the last format,
    ["%u"], returns [sec] and not [sec * 1000]. *)
Theorem lengthToMs_seconds (S : list byte) :
  digits S -> dval S < 2 ^ 32 -> lengthToMs S = dval S.
Proof. intros. lengthToMs_prep. reflexivity. Qed.

(** "seconds.decimal" (or with a comma) adds [min * 60 * 1000] to the
    result, and [min] holds the seconds, written there by the failed
    ["%u:%u.%u"] scan: the result is [sec * 60 * 1000 + sec * 1000 +
    frac * frac_adj], where [frac_adj] follows the number of digits of
    the decimal part (100, 10, then 1). *)
Theorem lengthToMs_sec_frac (S F : list byte) (sep : byte) :
  sep = "."%byte \/ sep = ","%byte ->
  digits S -> digits F -> dval S < 2 ^ 32 -> dval F < 2 ^ 32 ->
  lengthToMs (S ++ sep :: F) =
    u32 (dval S * 60 * 1000 + dval S * 1000 +
         dval F * frac_adj_of (List.length F)).
Proof.
  intros Hsep. intros. destruct Hsep as [-> | ->]; lengthToMs_prep;
    destruct (List.length F) as [|[|[|]]]; reflexivity.
Qed.

(** "minutes:seconds.decimal" (or with a comma) is converted to
    [(min * 60 + sec) * 1000 + frac * frac_adj] milliseconds, modulo
    [2^32]; with four or more decimal digits [frac_adj] stays 1. *)
Theorem lengthToMs_min_sec_frac (M S F : list byte) (sep : byte) :
  sep = "."%byte \/ sep = ","%byte ->
  digits M -> digits S -> digits F ->
  dval M < 2 ^ 32 -> dval S < 2 ^ 32 -> dval F < 2 ^ 32 ->
  lengthToMs (M ++ ":"%byte :: S ++ sep :: F) =
    u32 (dval M * 60 * 1000 + dval S * 1000 +
         dval F * frac_adj_of (List.length F)).
Proof.
  intros Hsep. intros. destruct Hsep as [-> | ->]; lengthToMs_prep;
    destruct (List.length F) as [|[|[|]]]; reflexivity.
Qed.

(** "hours:minutes:seconds.decimal" (or with a comma) is converted to
    [((hour * 60 + min) * 60 + sec) * 1000 + frac * frac_adj]
    milliseconds, modulo [2^32]. *)
Theorem lengthToMs_hms_frac (H M S F : list byte) (sep : byte) :
  sep = "."%byte \/ sep = ","%byte ->
  digits H -> digits M -> digits S -> digits F ->
  dval H < 2 ^ 32 -> dval M < 2 ^ 32 -> dval S < 2 ^ 32 -> dval F < 2 ^ 32 ->
  lengthToMs (H ++ ":"%byte :: M ++ ":"%byte :: S ++ sep :: F) =
    u32 (dval H * 60 * 60 * 1000 + dval M * 60 * 1000 + dval S * 1000 +
         dval F * frac_adj_of (List.length F)).
Proof.
  intros Hsep. intros. destruct Hsep as [-> | ->]; lengthToMs_prep;
    destruct (List.length F) as [|[|[|]]]; reflexivity.
Qed.


(** A string that is empty or starts with a character other than a
    digit, a white space or a sign matches no format and gives 0. *)
Theorem lengthToMs_no_number (str : list byte) :
  match c_str str with
  | [] => True
  | c :: _ => is_digit c = false /\ is_space c = false /\
              c <> "+"%byte /\ c <> "-"%byte
  end ->
  lengthToMs str = 0.
Proof.
  intros Hc. unfold lengthToMs, scanf_to, sscanf. rewrite c_str_idem.
  destruct (c_str str) as [|c r].
  - reflexivity.
  - destruct Hc as [Hd [Hs [Hp Hm]]].
    unfold fmt_hms_dot, fmt_hms_comma, fmt_hms, fmt_ms_dot, fmt_ms_comma,
      fmt_ms, fmt_s_dot, fmt_s_comma, fmt_s.
    rewrite !scan_du_fail by assumption. reflexivity.
Qed.


Lemma lengthToMs_min_sec_witness :
  digits (PSFProofs.b "1") /\
  digits (PSFProofs.b "23") /\
  dval (PSFProofs.b "1") < 2 ^ 32 /\
  dval (PSFProofs.b "23") < 2 ^ 32 /\
  lengthToMs (PSFProofs.b "1" ++ ":"%byte :: PSFProofs.b "23") = 83000.
Proof.
  assert (A0 : digits (PSFProofs.b "1"))
    by (digits_ok || reflexivity || (left; reflexivity) || (right; reflexivity)).
  assert (A1 : digits (PSFProofs.b "23"))
    by (digits_ok || reflexivity || (left; reflexivity) || (right; reflexivity)).
  assert (A2 : dval (PSFProofs.b "1") < 2 ^ 32)
    by (digits_ok || reflexivity || (left; reflexivity) || (right; reflexivity)).
  assert (A3 : dval (PSFProofs.b "23") < 2 ^ 32)
    by (digits_ok || reflexivity || (left; reflexivity) || (right; reflexivity)).
  split; [exact A0|].
  split; [exact A1|].
  split; [exact A2|].
  split; [exact A3|].
  exact (lengthToMs_min_sec (PSFProofs.b "1") (PSFProofs.b "23") A0 A1 A2 A3).
Defined.

Lemma lengthToMs_hms_witness :
  digits (PSFProofs.b "1") /\
  digits (PSFProofs.b "02") /\
  digits (PSFProofs.b "03") /\
  dval (PSFProofs.b "1") < 2 ^ 32 /\
  dval (PSFProofs.b "02") < 2 ^ 32 /\
  dval (PSFProofs.b "03") < 2 ^ 32 /\
  lengthToMs (PSFProofs.b "1" ++ ":"%byte :: PSFProofs.b "02" ++ ":"%byte :: PSFProofs.b "03") = 3723000.
Proof.
  assert (A0 : digits (PSFProofs.b "1"))
    by (digits_ok || reflexivity || (left; reflexivity) || (right; reflexivity)).
  assert (A1 : digits (PSFProofs.b "02"))
    by (digits_ok || reflexivity || (left; reflexivity) || (right; reflexivity)).
  assert (A2 : digits (PSFProofs.b "03"))
    by (digits_ok || reflexivity || (left; reflexivity) || (right; reflexivity)).
  assert (A3 : dval (PSFProofs.b "1") < 2 ^ 32)
    by (digits_ok || reflexivity || (left; reflexivity) || (right; reflexivity)).
  assert (A4 : dval (PSFProofs.b "02") < 2 ^ 32)
    by (digits_ok || reflexivity || (left; reflexivity) || (right; reflexivity)).
  assert (A5 : dval (PSFProofs.b "03") < 2 ^ 32)
    by (digits_ok || reflexivity || (left; reflexivity) || (right; reflexivity)).
  split; [exact A0|].
  split; [exact A1|].
  split; [exact A2|].
  split; [exact A3|].
  split; [exact A4|].
  split; [exact A5|].
  exact (lengthToMs_hms (PSFProofs.b "1") (PSFProofs.b "02") (PSFProofs.b "03") A0 A1 A2 A3 A4 A5).
Defined.

Lemma lengthToMs_seconds_witness :
  digits (PSFProofs.b "83") /\
  dval (PSFProofs.b "83") < 2 ^ 32 /\
  lengthToMs (PSFProofs.b "83") = 83.
Proof.
  assert (A0 : digits (PSFProofs.b "83"))
    by (digits_ok || reflexivity || (left; reflexivity) || (right; reflexivity)).
  assert (A1 : dval (PSFProofs.b "83") < 2 ^ 32)
    by (digits_ok || reflexivity || (left; reflexivity) || (right; reflexivity)).
  split; [exact A0|].
  split; [exact A1|].
  exact (lengthToMs_seconds (PSFProofs.b "83") A0 A1).
Defined.

Lemma lengthToMs_sec_frac_witness :
  ("."%byte = "."%byte \/ "."%byte = ","%byte) /\
  digits (PSFProofs.b "83") /\
  digits (PSFProofs.b "5") /\
  dval (PSFProofs.b "83") < 2 ^ 32 /\
  dval (PSFProofs.b "5") < 2 ^ 32 /\
  lengthToMs (PSFProofs.b "83" ++ "."%byte :: PSFProofs.b "5") = 5063500.
Proof.
  assert (A0 : "."%byte = "."%byte \/ "."%byte = ","%byte)
    by (digits_ok || reflexivity || (left; reflexivity) || (right; reflexivity)).
  assert (A1 : digits (PSFProofs.b "83"))
    by (digits_ok || reflexivity || (left; reflexivity) || (right; reflexivity)).
  assert (A2 : digits (PSFProofs.b "5"))
    by (digits_ok || reflexivity || (left; reflexivity) || (right; reflexivity)).
  assert (A3 : dval (PSFProofs.b "83") < 2 ^ 32)
    by (digits_ok || reflexivity || (left; reflexivity) || (right; reflexivity)).
  assert (A4 : dval (PSFProofs.b "5") < 2 ^ 32)
    by (digits_ok || reflexivity || (left; reflexivity) || (right; reflexivity)).
  split; [exact A0|].
  split; [exact A1|].
  split; [exact A2|].
  split; [exact A3|].
  split; [exact A4|].
  exact (lengthToMs_sec_frac (PSFProofs.b "83") (PSFProofs.b "5") "."%byte A0 A1 A2 A3 A4).
Defined.

Lemma lengthToMs_min_sec_frac_witness :
  (","%byte = "."%byte \/ ","%byte = ","%byte) /\
  digits (PSFProofs.b "1") /\
  digits (PSFProofs.b "23") /\
  digits (PSFProofs.b "4567") /\
  dval (PSFProofs.b "1") < 2 ^ 32 /\
  dval (PSFProofs.b "23") < 2 ^ 32 /\
  dval (PSFProofs.b "4567") < 2 ^ 32 /\
  lengthToMs (PSFProofs.b "1" ++ ":"%byte :: PSFProofs.b "23" ++ ","%byte :: PSFProofs.b "4567") = 87567.
Proof.
  assert (A0 : ","%byte = "."%byte \/ ","%byte = ","%byte)
    by (digits_ok || reflexivity || (left; reflexivity) || (right; reflexivity)).
  assert (A1 : digits (PSFProofs.b "1"))
    by (digits_ok || reflexivity || (left; reflexivity) || (right; reflexivity)).
  assert (A2 : digits (PSFProofs.b "23"))
    by (digits_ok || reflexivity || (left; reflexivity) || (right; reflexivity)).
  assert (A3 : digits (PSFProofs.b "4567"))
    by (digits_ok || reflexivity || (left; reflexivity) || (right; reflexivity)).
  assert (A4 : dval (PSFProofs.b "1") < 2 ^ 32)
    by (digits_ok || reflexivity || (left; reflexivity) || (right; reflexivity)).
  assert (A5 : dval (PSFProofs.b "23") < 2 ^ 32)
    by (digits_ok || reflexivity || (left; reflexivity) || (right; reflexivity)).
  assert (A6 : dval (PSFProofs.b "4567") < 2 ^ 32)
    by (digits_ok || reflexivity || (left; reflexivity) || (right; reflexivity)).
  split; [exact A0|].
  split; [exact A1|].
  split; [exact A2|].
  split; [exact A3|].
  split; [exact A4|].
  split; [exact A5|].
  split; [exact A6|].
  exact (lengthToMs_min_sec_frac (PSFProofs.b "1") (PSFProofs.b "23") (PSFProofs.b "4567") ","%byte A0 A1 A2 A3 A4 A5 A6).
Defined.

Lemma lengthToMs_hms_frac_witness :
  ("."%byte = "."%byte \/ "."%byte = ","%byte) /\
  digits (PSFProofs.b "1") /\
  digits (PSFProofs.b "02") /\
  digits (PSFProofs.b "03") /\
  digits (PSFProofs.b "25") /\
  dval (PSFProofs.b "1") < 2 ^ 32 /\
  dval (PSFProofs.b "02") < 2 ^ 32 /\
  dval (PSFProofs.b "03") < 2 ^ 32 /\
  dval (PSFProofs.b "25") < 2 ^ 32 /\
  lengthToMs (PSFProofs.b "1" ++ ":"%byte :: PSFProofs.b "02" ++ ":"%byte :: PSFProofs.b "03" ++ "."%byte :: PSFProofs.b "25") = 3723250.
Proof.
  assert (A0 : "."%byte = "."%byte \/ "."%byte = ","%byte)
    by (digits_ok || reflexivity || (left; reflexivity) || (right; reflexivity)).
  assert (A1 : digits (PSFProofs.b "1"))
    by (digits_ok || reflexivity || (left; reflexivity) || (right; reflexivity)).
  assert (A2 : digits (PSFProofs.b "02"))
    by (digits_ok || reflexivity || (left; reflexivity) || (right; reflexivity)).
  assert (A3 : digits (PSFProofs.b "03"))
    by (digits_ok || reflexivity || (left; reflexivity) || (right; reflexivity)).
  assert (A4 : digits (PSFProofs.b "25"))
    by (digits_ok || reflexivity || (left; reflexivity) || (right; reflexivity)).
  assert (A5 : dval (PSFProofs.b "1") < 2 ^ 32)
    by (digits_ok || reflexivity || (left; reflexivity) || (right; reflexivity)).
  assert (A6 : dval (PSFProofs.b "02") < 2 ^ 32)
    by (digits_ok || reflexivity || (left; reflexivity) || (right; reflexivity)).
  assert (A7 : dval (PSFProofs.b "03") < 2 ^ 32)
    by (digits_ok || reflexivity || (left; reflexivity) || (right; reflexivity)).
  assert (A8 : dval (PSFProofs.b "25") < 2 ^ 32)
    by (digits_ok || reflexivity || (left; reflexivity) || (right; reflexivity)).
  split; [exact A0|].
  split; [exact A1|].
  split; [exact A2|].
  split; [exact A3|].
  split; [exact A4|].
  split; [exact A5|].
  split; [exact A6|].
  split; [exact A7|].
  split; [exact A8|].
  exact (lengthToMs_hms_frac (PSFProofs.b "1") (PSFProofs.b "02") (PSFProofs.b "03") (PSFProofs.b "25") "."%byte A0 A1 A2 A3 A4 A5 A6 A7 A8).
Defined.

Lemma lengthToMs_no_number_witness :
  match c_str (PSFProofs.b "abc") with
  | [] => True
  | c :: _ => is_digit c = false /\ is_space c = false /\
              c <> "+"%byte /\ c <> "-"%byte
  end /\ lengthToMs (PSFProofs.b "abc") = 0.
Proof.
  assert (A : match c_str (PSFProofs.b "abc") with
              | [] => True
              | c :: _ => is_digit c = false /\ is_space c = false /\
                          c <> "+"%byte /\ c <> "-"%byte
              end)
    by (simpl; repeat split; discriminate).
  split; [exact A|]. exact (lengthToMs_no_number (PSFProofs.b "abc") A).
Defined.


Lemma scan_digits_exact (ds rest : list byte) (acc : Z) (nd : nat) :
  forallb is_digit ds = true ->
  scan_digits (List.length ds) (ds ++ rest) acc nd =
    (fold_left (fun acc c => acc * 10 + (bval c - 48)) ds acc,
     (nd + List.length ds)%nat, rest).
Proof.
  revert acc nd. induction ds as [|c ds IH]; intros acc nd Hd.
  - simpl. rewrite Nat.add_0_r. reflexivity.
  - simpl in Hd. apply andb_prop in Hd as [Hc Hd].
    simpl. rewrite Hc. rewrite IH by exact Hd.
    replace (nd + S (List.length ds))%nat with (S nd + List.length ds)%nat by lia.
    reflexivity.
Qed.

Lemma dval_lt_acc (ds : list byte) (acc : Z) :
  0 <= acc -> forallb is_digit ds = true ->
  fold_left (fun acc c => acc * 10 + (bval c - 48)) ds acc
    < (acc + 1) * 10 ^ Z.of_nat (List.length ds).
Proof.
  revert acc. induction ds as [|c ds IH]; intros acc Ha Hd;
    cbn [fold_left List.length]; [simpl; lia|].
  simpl in Hd. apply andb_prop in Hd as [Hc Hd].
  unfold is_digit in Hc. apply andb_prop in Hc as [H1 H2].
  apply Z.leb_le in H1, H2.
  assert (P : 0 < 10 ^ Z.of_nat (List.length ds)) by (apply Z.pow_pos_nonneg; lia).
  specialize (IH (acc * 10 + (bval c - 48)) ltac:(lia) Hd).
  rewrite Nat2Z.inj_succ, Z.pow_succ_r by lia. nia.
Qed.

Lemma bval_dash (x : byte) : (bval x =? 45) = Byte.eqb x "-"%byte.
Proof. destruct x; reflexivity. Qed.

Lemma bval_slash (x : byte) : (bval x =? 47) = Byte.eqb x "/"%byte.
Proof. destruct x; reflexivity. Qed.

Lemma c_str_app_no_nul (l r : list byte) :
  ~ In Byte.x00 l -> c_str (l ++ r) = l ++ c_str r.
Proof.
  induction l as [|c l IH]; intros H; [reflexivity|]. simpl.
  destruct (Byte.eqb c Byte.x00) eqn:E.
  - apply Byte.byte_dec_bl in E. subst. exfalso. apply H. left. reflexivity.
  - rewrite IH; [reflexivity|]. intros I. apply H. right. exact I.
Qed.

(** A "year" tag that starts with four digits gives that number as the
    release year when the digits end the string or are followed by a dash
    or a slash; with any other character after them no year is set. *)
Theorem release_year_four_digits (Y rest : list byte) :
  digits Y -> List.length Y = 4%nat ->
  release_year (Y ++ rest) =
    match c_str rest with
    | [] => [(ReleaseYear, MUInt (dval Y))]
    | c :: _ =>
        if Byte.eqb c "-"%byte || Byte.eqb c "/"%byte
        then [(ReleaseYear, MUInt (dval Y))] else []
    end.
Proof.
  intros [Hne Hd] Hl.
  assert (Lt := dval_lt_acc Y 0 ltac:(lia) Hd). rewrite Hl in Lt.
  assert (N0 := dval_nonneg_acc Y 0 ltac:(lia) Hd).
  fold (dval Y) in Lt, N0. change (Z.of_nat 4) with 4 in Lt.
  unfold release_year, sscanf.
  rewrite c_str_app_no_nul
    by (apply digits_not_in; [exact Hd | reflexivity]).
  destruct Y as [|c Y']; [contradiction|].
  pose proof Hd as Hd'. simpl in Hd'. apply andb_prop in Hd' as [Hc _].
  destruct (is_digit_not_sign c Hc) as [Hm Hp].
  cbn [scan app]. cbn [skip_space]. rewrite (is_digit_not_space c Hc).
  unfold scan_number. rewrite Hm, Hp.
  change (c :: Y' ++ c_str rest) with ((c :: Y') ++ c_str rest).
  rewrite <- Hl, scan_digits_exact by exact Hd. rewrite Hl.
  fold (dval (c :: Y')). cbn [Nat.eqb Nat.add store_d].
  assert (Y : (0 <=? dval (c :: Y')) && (dval (c :: Y') <? 10000) = true)
    by (apply andb_true_intro; split; [apply Z.leb_le | apply Z.ltb_lt]; lia).
  destruct (c_str rest) as [|x r].
  - cbn -[dval]. rewrite Y. reflexivity.
  - cbn -[dval]. rewrite bval_dash, bval_slash.
    destruct (Byte.eqb x "-"%byte || Byte.eqb x "/"%byte); [|reflexivity].
    rewrite Y. reflexivity.
Qed.


Lemma release_year_four_digits_witness :
  digits (PSFProofs.b "2001") /\ List.length (PSFProofs.b "2001") = 4%nat /\
  release_year (PSFProofs.b "2001" ++ PSFProofs.b "x") = [].
Proof.
  assert (A : digits (PSFProofs.b "2001")) by digits_ok.
  assert (B : List.length (PSFProofs.b "2001") = 4%nat) by reflexivity.
  split; [exact A|]. split; [exact B|].
  exact (release_year_four_digits (PSFProofs.b "2001") (PSFProofs.b "x") A B).
Defined.

End PSFScanProofs.

Module PSFTagProofs.
Import CLib PSF.
Import TextFuncsMiscProofs.

(** The tags [parseTags] builds from the bytes after the tag magic. *)
Definition tags_of (conv : list byte -> list byte) (post : list byte) : tags :=
  if Nat.eqb (List.length post) 0 then []
  else
  let '(kv, isUtf8) := fold_left parse_line (lines post) ([], false) in
  if isUtf8 then kv else map (fun p => (fst p, conv (c_str (snd p)))) kv.


Definition key_ok (k : list byte) : Prop := k <> [] /\ map tolower k = k.

Definition tags_ok (kv : tags) : Prop :=
  NoDup (map fst kv) /\ Forall key_ok (map fst kv).

Lemma tolower_idem (c : byte) : tolower (tolower c) = tolower c.
Proof. destruct c; reflexivity. Qed.

Lemma map_tolower_idem (l : list byte) : map tolower (map tolower l) = map tolower l.
Proof. rewrite map_map. apply map_ext. apply tolower_idem. Qed.

Lemma find_none_notin (kv : tags) (k : list byte) :
  find kv k = None -> ~ In k (map fst kv).
Proof.
  induction kv as [|[k' v] r IH]; intros H I; [exact I|].
  simpl in H. destruct (list_eq_dec Byte.byte_eq_dec k k'); [discriminate|].
  destruct I as [E|I]; [simpl in E; congruence | exact (IH H I)].
Qed.

Lemma NoDup_snoc {A} (l : list A) (x : A) :
  NoDup l -> ~ In x l -> NoDup (l ++ [x]).
Proof.
  induction l as [|y r IH]; intros N I; simpl; [constructor; [intros []|constructor]|].
  inversion N as [|? ? Ny Nr]; subst. constructor.
  - intros J. apply in_app_or in J as [J|[J|[]]]; [contradiction|].
    apply I. left. symmetry. exact J.
  - apply IH; [exact Nr|]. intros J. apply I. right. exact J.
Qed.

Lemma emplace_ok (kv : tags) (k v : list byte) :
  tags_ok kv -> key_ok k -> tags_ok (emplace kv k v).
Proof.
  intros [N F] K. unfold emplace. destruct (find kv k) eqn:E; [split; assumption|].
  split; rewrite map_app; simpl.
  - apply NoDup_snoc; [exact N | exact (find_none_notin kv k E)].
  - apply Forall_app. split; [exact F | constructor; [exact K | constructor]].
Qed.

Lemma line_entry_key_ok (l k v : list byte) :
  PSFProofs.line_entry l = Some (k, v) -> key_ok k.
Proof.
  unfold PSFProofs.line_entry. destruct l as [|c r]; [discriminate|].
  destruct (split_eq (c :: r)) as [[k0 v0]|]; [|discriminate].
  cbv zeta.
  destruct (0 <? to_int (Z.of_nat (List.length k0))) eqn:Hk; [|discriminate].
  destruct (0 <? to_int (Z.of_nat (List.length v0))); [|discriminate].
  intros H. injection H as <- _. apply Z.ltb_lt in Hk. split.
  - intros E. apply map_eq_nil in E.
    destruct k0 as [|x k0]; [vm_compute in Hk; discriminate|].
    destruct (Z.to_nat (to_int (Z.of_nat (List.length (x :: k0))))) eqn:N;
      [lia | discriminate E].
  - apply map_tolower_idem.
Qed.

Lemma fold_parse_line_ok (ls : list (list byte)) (acc : tags * bool) :
  tags_ok (fst acc) -> tags_ok (fst (fold_left parse_line ls acc)).
Proof.
  revert acc. induction ls as [|l r IH]; intros acc H; [exact H|].
  simpl. apply IH. rewrite PSFProofs.parse_line_map.
  destruct (PSFProofs.line_entry l) as [[k v]|] eqn:E; [|exact H].
  apply emplace_ok; [exact H | exact (line_entry_key_ok l k v E)].
Qed.

(** [parseTags] returns distinct keys, none empty, all lower case. *)
Theorem parseTags_keys_ok (L : layout) (conv : list byte -> list byte)
    (f : IRpFile) (a : Z) :
  tags_ok (fst (fst (parseTags L conv f a))).
Proof.
  assert (E : tags_ok []) by (split; constructor).
  unfold parseTags.
  destruct (seekAndRead f a (sizeof_TAG_MAGIC L)) as [tm f1].
  destruct (negb _); [exact E|].
  destruct (_ <=? 0); [exact E|].
  destruct (read f1 _) as [td f2].
  destruct (negb _); [exact E|].
  pose proof (fold_parse_line_ok (lines td) ([], false) E) as H.
  destruct (fold_left _ _ _) as [kv u]. simpl in H |- *.
  destruct u; [exact H|].
  unfold tags_ok. rewrite map_map. simpl. exact H.
Qed.


Lemma skipn_prefix (pre rest : list byte) : skipn (List.length pre) (pre ++ rest) = rest.
Proof. induction pre as [|c r IH]; [reflexivity | exact IH]. Qed.

Lemma parseTags_after_magic (L : layout) (conv : list byte -> list byte)
    (pre m post : list byte) (p n : nat) :
  List.length m = sizeof_TAG_MAGIC L ->
  fst (fst (parseTags L conv (mkFile (pre ++ m ++ post) p n)
              (Z.of_nat (List.length pre)))) = tags_of conv post.
Proof.
  intros Hm. unfold parseTags, seekAndRead, read, file_size, tags_of. cbn [f_data f_pos].
  replace (Z.of_nat (List.length pre) <? 0) with false by zfalse.
  rewrite Nat2Z.id, skipn_prefix.
  rewrite firstn_app, <- Hm, firstn_all, Nat.sub_diag, firstn_O, app_nil_r.
  cbn [f_data f_pos fst snd].
  rewrite Nat.eqb_refl. cbn [negb].
  rewrite !length_app.
  replace (Z.of_nat (List.length pre + (List.length m + List.length post)) -
           Z.of_nat (List.length pre) - Z.of_nat (List.length m))
    with (Z.of_nat (List.length post)) by lia.
  rewrite Nat2Z.id.
  replace (List.length pre + List.length m)%nat with (List.length (pre ++ m))
    by (rewrite length_app; reflexivity).
  rewrite app_assoc, skipn_prefix, firstn_all.
  destruct (List.length post) eqn:E.
  - reflexivity.
  - cbn [Nat.eqb]. replace (Z.of_nat (S n0) <=? 0) with false by zfalse.
    rewrite Z.eqb_refl. cbn [negb].
    destruct (fold_left _ _ _) as [kv [|]]; reflexivity.
Qed.

(** [parseTags] reads the tag magic but never compares it: the tags
    parsed are the same whatever bytes stand in its place. *)
Theorem parseTags_ignores_magic (L : layout) (conv : list byte -> list byte)
    (pre m1 m2 post : list byte) :
  List.length m1 = sizeof_TAG_MAGIC L -> List.length m2 = sizeof_TAG_MAGIC L ->
  fst (fst (parseTags L conv (file_of (pre ++ m1 ++ post)) (Z.of_nat (List.length pre)))) =
  fst (fst (parseTags L conv (file_of (pre ++ m2 ++ post)) (Z.of_nat (List.length pre)))).
Proof.
  intros H1 H2. unfold file_of.
  rewrite (parseTags_after_magic L conv pre m1 post 0 0 H1).
  rewrite (parseTags_after_magic L conv pre m2 post 0 0 H2).
  reflexivity.
Qed.


Lemma parseTags_ignores_magic_witness :
  List.length (PSFProofs.b "[TAG]") = sizeof_TAG_MAGIC sample_layout /\
  List.length (PSFProofs.b "XXXXX") = sizeof_TAG_MAGIC sample_layout /\
  fst (fst (parseTags sample_layout (fun x => x)
              (file_of ([] ++ PSFProofs.b "[TAG]" ++ PSFProofs.b "title=x"))
              (Z.of_nat (List.length (@nil byte))))) =
  fst (fst (parseTags sample_layout (fun x => x)
              (file_of ([] ++ PSFProofs.b "XXXXX" ++ PSFProofs.b "title=x"))
              (Z.of_nat (List.length (@nil byte))))).
Proof.
  assert (A : List.length (PSFProofs.b "[TAG]") = sizeof_TAG_MAGIC sample_layout)
    by reflexivity.
  assert (B : List.length (PSFProofs.b "XXXXX") = sizeof_TAG_MAGIC sample_layout)
    by reflexivity.
  split; [exact A|]. split; [exact B|].
  exact (parseTags_ignores_magic sample_layout (fun x => x) [] _ _ _ A B).
Defined.

End PSFTagProofs.

Module PSFLoadProofs.
Import PSF.

(** A PSF file with an empty program and the tags "title" and "utf8". *)
Definition tagged_psf : list byte :=
  PSFProofs.b "PSF" ++ bytes_of_Z (1 :: repeat 0 12) ++
  PSFProofs.b "[TAG]title=Song" ++ ["010"%byte] ++ PSFProofs.b "utf8=1".

(** A PSF file whose only tag is "utf8". *)
Definition utf8_only_psf : list byte :=
  PSFProofs.b "PSF" ++ bytes_of_Z (1 :: repeat 0 12) ++ PSFProofs.b "[TAG]utf8=1".

Lemma opt_field_len (t : string) (kv : tags) (k : string) :
  (List.length (opt_field t kv k) <= 1)%nat.
Proof. unfold opt_field. destruct (find kv _); simpl; lia. Qed.

Lemma opt_meta_len (p : Property) (kv : tags) (k : string) :
  (List.length (opt_meta p kv k) <= 1)%nat.
Proof. unfold opt_meta. destruct (find kv _); simpl; lia. Qed.

Lemma release_year_len (v : list byte) : (List.length (release_year v) <= 1)%nat.
Proof.
  unfold release_year. destruct (CLib.sscanf v _) as [s vals].
  destruct (_ || _); [|simpl; lia]. destruct (_ && _); simpl; lia.
Qed.

(** On a valid object with an open file and no fields yet, [loadFieldData]
    returns the number of fields it stores: the System field and at most
    one field for each of the eleven tags it looks up. *)
Theorem PSF_loadFieldData_count (L : layout) (conv : list byte -> list byte)
    (d : PSFPrivate) :
  fields d = [] -> file d <> None -> isValid d = true ->
  let '(n, d') := loadFieldData L conv d in
  n = Z.of_nat (List.length (fields d')) /\ 1 <= n <= 12.
Proof.
  intros Hf Hfile Hv. unfold loadFieldData. rewrite Hf.
  destruct (file d) as [f|]; [|contradiction]. rewrite Hv. cbn [negb].
  destruct (parseTags L conv f (tag_addr L d)) as [[kv f'] sz].
  cbn [fields]. split; [reflexivity|].
  destruct kv as [|p kv]; [simpl; lia|].
  set (kv' := p :: kv).
  pose proof (opt_field_len "Title" kv' "title").
  pose proof (opt_field_len "Artist" kv' "artist").
  pose proof (opt_field_len "Game" kv' "game").
  pose proof (opt_field_len "Release Date" kv' "year").
  pose proof (opt_field_len "Genre" kv' "genre").
  pose proof (opt_field_len "Copyright" kv' "copyright").
  pose proof (opt_field_len "Ripped By" kv' "psfby").
  pose proof (opt_field_len "Volume" kv' "volume").
  pose proof (opt_field_len "Duration" kv' "length").
  pose proof (opt_field_len "Fadeout Duration" kv' "fade").
  pose proof (opt_field_len "Comment" kv' "comment").
  assert (R : (List.length
            match find kv' (getRippedByTagName L (version L (psfHeader d))) with
            | Some v => [("Ripped By"%string, text v)]
            | None => opt_field "Ripped By" kv' "psfby"
            end <= 1)%nat)
    by (destruct (find kv' _); [simpl; lia | apply opt_field_len]).
  cbn [List.length]. rewrite !length_app. lia.
Qed.

(** On a valid object with an open file and no metadata yet,
    [loadMetaData] either fails with [-EIO] and caches nothing, or caches
    at most eight properties and returns their number (0 when the tags
    hold none of the keys it looks up). *)
Theorem PSF_loadMetaData_count (L : layout) (conv : list byte -> list byte)
    (d : PSFPrivate) :
  metaData d = None -> file d <> None -> isValid d = true ->
  let '(n, d') := loadMetaData L conv d in
  (n = - EIO /\ metaData d' = None) \/
  (exists md, metaData d' = Some md /\ n = Z.of_nat (List.length md) /\
              (List.length md <= 8)%nat).
Proof.
  intros Hm Hfile Hv. unfold loadMetaData. rewrite Hm.
  destruct (file d) as [f|]; [|contradiction]. rewrite Hv. cbn [negb].
  destruct (parseTags L conv f (tag_addr L d)) as [[kv f'] sz].
  destruct kv as [|p kv]; [left; split; reflexivity|].
  right. eexists. split; [reflexivity|]. split; [reflexivity|].
  set (kv' := p :: kv).
  pose proof (opt_meta_len Title kv' "title").
  pose proof (opt_meta_len Artist kv' "artist").
  pose proof (opt_meta_len Album kv' "game").
  pose proof (opt_meta_len Genre kv' "genre").
  pose proof (opt_meta_len Copyright kv' "copyright").
  pose proof (opt_meta_len Subject kv' "comment").
  assert (Y : (List.length match find kv' (list_byte_of_string "year") with
                           | Some v => release_year v
                           | None => []
                           end <= 1)%nat)
    by (destruct (find kv' (list_byte_of_string "year"));
        [apply release_year_len | simpl; lia]).
  assert (D : (List.length match find kv' (list_byte_of_string "length") with
                           | Some v => [(Duration, MInteger (lengthToMs v))]
                           | None => []
                           end <= 1)%nat).
  { destruct (find kv' (list_byte_of_string "length")); simpl; lia. }
  rewrite !length_app.
  apply Nat.le_trans with (1 + (1 + (1 + (1 + (1 + (1 + (1 + 1)))))))%nat; [|lia].
  repeat apply Nat.add_le_mono; assumption.
Qed.


Lemma PSF_loadFieldData_count_witness :
  let d := PSF_ctor sample_layout (Some (file_of tagged_psf)) in
  fields d = [] /\ file d <> None /\ isValid d = true /\
  (let '(n, d') := loadFieldData sample_layout (fun x => x) d in
   n = Z.of_nat (List.length (fields d')) /\ 1 <= n <= 12) /\
  fst (loadFieldData sample_layout (fun x => x) d) = 2.
Proof.
  intros d.
  assert (A : fields d = []) by reflexivity.
  assert (B : file d <> None) by (vm_compute; discriminate).
  assert (C : isValid d = true) by reflexivity.
  split; [exact A|]. split; [exact B|]. split; [exact C|].
  split; [exact (PSF_loadFieldData_count sample_layout (fun x => x) d A B C)|].
  vm_compute. reflexivity.
Defined.

Lemma PSF_loadMetaData_count_witness :
  let d := PSF_ctor sample_layout (Some (file_of utf8_only_psf)) in
  metaData d = None /\ file d <> None /\ isValid d = true /\
  (let '(n, d') := loadMetaData sample_layout (fun x => x) d in
   (n = - EIO /\ metaData d' = None) \/
   (exists md, metaData d' = Some md /\ n = Z.of_nat (List.length md) /\
               (List.length md <= 8)%nat)) /\
  fst (loadMetaData sample_layout (fun x => x) d) = 0 /\
  metaData (snd (loadMetaData sample_layout (fun x => x) d)) = Some [].
Proof.
  intros d.
  assert (A : metaData d = None) by reflexivity.
  assert (B : file d <> None) by (vm_compute; discriminate).
  assert (C : isValid d = true) by reflexivity.
  split; [exact A|]. split; [exact B|]. split; [exact C|].
  split; [exact (PSF_loadMetaData_count sample_layout (fun x => x) d A B C)|].
  split; vm_compute; reflexivity.
Defined.

End PSFLoadProofs.

Module BRSTMFieldProofs.
Import BRSTM.

(** On a valid object with an open file and no fields yet, [loadFieldData]
    adds seven fields, or eight when the stream loops, returns their number
    and leaves the file and the metadata alone. *)
Theorem loadFieldData_count (L : layout) (d : BRSTMPrivate) :
  fields d = [] -> file d <> None -> isValid d = true ->
  let '(n, d') := loadFieldData L d in
  n = (if loop_flag (decode_HEAD_Chunk1 L (headChunk1 d)) =? 0 then 7 else 8) /\
  n = Z.of_nat (List.length (fields d')) /\
  file d' = file d /\ metaData d' = metaData d.
Proof.
  intros Hf Hfile Hv. unfold loadFieldData. rewrite Hf.
  destruct (file d) as [f|] eqn:E; [|contradiction].
  rewrite Hv. cbn [negb].
  destruct (loop_flag (decode_HEAD_Chunk1 L (headChunk1 d)) =? 0);
    cbn [negb app List.length]; unfold set_fields; cbn [file metaData fields];
    repeat split; rewrite ?E; reflexivity.
Qed.

Lemma loadFieldData_count_witness :
  let d := BRSTM_ctor sample_layout (Some (file_of sample_file)) in
  fields d = [] /\ file d <> None /\ isValid d = true /\
  fst (loadFieldData sample_layout d) = 7.
Proof.
  intros d.
  assert (A : fields d = []) by reflexivity.
  assert (B : file d <> None) by (vm_compute; discriminate).
  assert (C : isValid d = true) by reflexivity.
  split; [exact A|]. split; [exact B|]. split; [exact C|].
  pose proof (loadFieldData_count sample_layout d A B C) as H.
  destruct (loadFieldData sample_layout d) as [n d'].
  destruct H as [H _]. simpl. rewrite H. reflexivity.
Defined.

End BRSTMFieldProofs.

Module N64SwapProofs.
Import N64.

(** The three in-place conversions of [N64::N64] are involutions on any
    buffer: converting twice gives the buffer back. *)
Theorem swap_arrays_involutive (l : list byte) :
  byte_swap_16_array (byte_swap_16_array l) = l /\
  unswap2_array (unswap2_array l) = l /\
  byte_swap_32_array (byte_swap_32_array l) = l.
Proof.
  assert (G : forall n (l : list byte), (List.length l <= n)%nat ->
    byte_swap_16_array (byte_swap_16_array l) = l /\
    unswap2_array (unswap2_array l) = l /\
    byte_swap_32_array (byte_swap_32_array l) = l).
  { induction n as [|n IH]; intros l' Hl.
    - destruct l'; [repeat split | simpl in Hl; lia].
    - destruct l' as [|a [|b [|c [|e r]]]]; try (repeat split; reflexivity).
      cbn [List.length] in Hl.
      assert (R1 : (List.length r <= n)%nat) by lia.
      assert (R2 : (List.length (c :: e :: r) <= n)%nat) by (cbn [List.length]; lia).
      destruct (IH r R1) as [_ [H2 H3]].
      destruct (IH (c :: e :: r) R2) as [H1 _].
      simpl. simpl in H1. rewrite H1, H2, H3. repeat split. }
  exact (G (List.length l) l (le_n _)).
Qed.

End N64SwapProofs.
